(** * The pipe/operator composition engine of dvirusJS

    A shallow embedding of the RxJS-style [Pipe] class with its operator
    factories (the rx-pipe module), of [PipeManagerImpl]
    (dvirusJs-vanilla/pipe/pipe-operators.ts) and of the take and skip of
    LinqJs, followed by the properties of the specification that were
    checked against them and by further properties read off the code.

    Modelling conventions.
    - JavaScript values are the inductive [JsVal]; a number is an integer
      ([Z]): the engine itself only counts ([i + 1]), fractions and NaN are
      not represented.
    - Code that may throw or touch the outside world lives in the monad
      [Eff]: state passing over [World] with a completion that is either
      normal or a thrown value.  [World] holds the console and the mutable
      variables that operator closures capture.
    - An operator result is a plain JavaScript object and is read the way
      the source reads it, by property access and truthiness, so the
      duck-typing of [isPipeResult] is kept.
    - The context object handed to an operator is a snapshot: an operator
      that would assign to the fields of the context it receives is outside
      the model.
    - A value is taken at the type the source declares for it: the
      debugName of a result is a string or undefined and the argument of
      error() an Error or a string, so their conversion to text does not
      throw ([to_string]).  What a callback throws has no declared type:
      the conversion of a caught value in a catch block can throw
      ([String_of], [caught_Error]). *)

From Stdlib Require Import List String Ascii ZArith Bool Lia DecimalString.
From Equations Require Import Equations.
Import ListNotations.
Local Open Scope list_scope.
Local Open Scope string_scope.



(* ================================================================== *)
(** ** JavaScript values *)
(* ================================================================== *)

#[warnings="-register-all"]
Inductive JsVal : Type :=
| VUndefined
| VNull
| VBool (b : bool)
| VNum (n : Z)
| VStr (s : string)
| VError (name message : string)          (* an instance of Error *)
| VObj (fields : list (string * JsVal)).  (* a plain object *)

Definition Fields := list (string * JsVal).

(** ToBoolean. *)
Definition truthy (v : JsVal) : bool :=
  match v with
  | VUndefined | VNull => false
  | VBool b => b
  | VNum n => negb (n =? 0)%Z
  | VStr s => negb (s =? "")%string
  | VError _ _ | VObj _ => true
  end.

Definition string_of_nat (n : nat) : string :=
  NilZero.string_of_uint (Nat.to_uint n).

Definition string_of_Z (n : Z) : string :=
  NilZero.string_of_int (Z.to_int n).

(** The text of [String(v)], also what a template literal puts in a hole,
    for a value whose conversion does not throw.  It stands alone only
    where the source converts a value whose declared type is string, Error
    or undefined (the debugName of a result, the argument of error());
    [String_of], below, is the conversion of a value of any type, which
    can throw.  An integer prints in full, which is what String gives
    below 10^21; from there on String writes an exponent ("1e+21"), which
    is not modelled: the statements about the text of a converted number
    are made for numbers below that size. *)
Definition to_string (v : JsVal) : string :=
  match v with
  | VUndefined => "undefined"
  | VNull => "null"
  | VBool true => "true"
  | VBool false => "false"
  | VNum n => string_of_Z n
  | VStr s => s
  | VError name message =>
      if (message =? "")%string then name else name ++ ": " ++ message
  | VObj _ => "[object Object]"
  end.

(** [typeof v]. *)
Definition typeof (v : JsVal) : string :=
  match v with
  | VUndefined => "undefined"
  | VBool _ => "boolean"
  | VNum _ => "number"
  | VStr _ => "string"
  | VNull | VError _ _ | VObj _ => "object"
  end.

(** [v instanceof Error]. *)
Definition instanceof_Error (v : JsVal) : bool :=
  match v with VError _ _ => true | _ => false end.

(** [new Error(message)]. *)
Definition new_Error (message : string) : JsVal := VError "Error" message.

(** [error instanceof Error ? error : new Error(String(error))] where
    String(error) does not throw: the Error that [caught_Error], below,
    gives for such a value. *)
Definition as_Error (e : JsVal) : JsVal :=
  if instanceof_Error e then e else new_Error (to_string e).

Fixpoint lookup (k : string) (fs : Fields) : option JsVal :=
  match fs with
  | [] => None
  | (k', v) :: rest => if (k' =? k)%string then Some v else lookup k rest
  end.

(** Assignment of one key of an object under construction: an existing key
    keeps its place and takes the new value, a new key goes last. *)
Fixpoint set_field (k : string) (v : JsVal) (fs : Fields) : Fields :=
  match fs with
  | [] => [(k, v)]
  | (k', v') :: rest =>
      if (k' =? k)%string then (k, v) :: rest else (k', v') :: set_field k v rest
  end.

Fixpoint chars_from (i : nat) (s : string) : Fields :=
  match s with
  | EmptyString => []
  | String c rest => (string_of_nat i, VStr (String c EmptyString)) :: chars_from (S i) rest
  end.

(** The own enumerable properties that a spread [...v] copies. *)
Definition own_fields (v : JsVal) : Fields :=
  match v with
  | VObj fs => fs
  | VStr s => chars_from 0 s
  | _ => []
  end.

(** [{ ...into, k1: v1, ... }]: the entries are assigned left to right. *)
Definition assign (into : Fields) (entries : Fields) : Fields :=
  fold_left (fun acc kv => set_field (fst kv) (snd kv) acc) entries into.

(** [{ ...into, ...src }]. *)
Definition spread (into : Fields) (src : JsVal) : Fields :=
  assign into (own_fields src).

(** [k in v], for a [v] whose [typeof] is "object" and that is not null. *)
Definition has_property (k : string) (v : JsVal) : bool :=
  match v with
  | VObj fs => match lookup k fs with Some _ => true | None => false end
  | VError _ _ => (k =? "message")%string || (k =? "name")%string
  | _ => false
  end.

(** [v.k] for a [v] that is neither undefined nor null.  Only the keys the
    source reads occur: value, stopped, error, metadata, debugName, message. *)
Definition prop (v : JsVal) (k : string) : JsVal :=
  match v with
  | VObj fs => match lookup k fs with Some x => x | None => VUndefined end
  | VError name message =>
      if (k =? "message")%string then VStr message
      else if (k =? "name")%string then VStr name
      else VUndefined
  | VStr s =>
      if (k =? "length")%string then VNum (Z.of_nat (String.length s)) else VUndefined
  | _ => VUndefined
  end.

Definition nullish (v : JsVal) : bool :=
  match v with VUndefined | VNull => true | _ => false end.

(** [a ?? b]. *)
Definition coalesce (a b : JsVal) : JsVal := if nullish a then b else a.

(* ================================================================== *)
(** ** Effects: the world, completions, and the monad *)
(* ================================================================== *)

(** [console]: the lines written by console.log, each with its arguments.
    [cells]: the mutable variables that closures capture and write to, such
    as the array a [tap] effect pushes to or a call counter. *)
Record World := mkWorld {
  console : list (list JsVal);
  cells : list JsVal
}.

Inductive Completion (A : Type) : Type :=
| Normal (a : A)
| Throw (e : JsVal).
Arguments Normal {A} a.
Arguments Throw {A} e.

Definition Eff (A : Type) : Type := World -> Completion A * World.

Definition ret {A} (a : A) : Eff A := fun w => (Normal a, w).

Definition throw {A} (e : JsVal) : Eff A := fun w => (Throw e, w).

Definition bind {A B} (m : Eff A) (k : A -> Eff B) : Eff B :=
  fun w =>
    match m w with
    | (Normal a, w') => k a w'
    | (Throw e, w') => (Throw e, w')
    end.

Notation "x <- m ;; k" := (bind m (fun x => k))
  (at level 61, m at next level, right associativity).
Notation "m ;; k" := (bind m (fun _ => k))
  (at level 61, right associativity).

(** [try { body } catch (e) { handler e }]. *)
Definition try_catch {A} (body : Eff A) (handler : JsVal -> Eff A) : Eff A :=
  fun w =>
    match body w with
    | (Normal a, w') => (Normal a, w')
    | (Throw e, w') => handler e w'
    end.

Definition console_log (args : list JsVal) : Eff unit :=
  fun w => (Normal tt, mkWorld (console w ++ [args])%list (cells w)).

Definition when (c : bool) (m : Eff unit) : Eff unit :=
  if c then m else ret tt.

(** [v.k]: a TypeError when [v] is undefined or null. *)
Definition read_prop (v : JsVal) (k : string) : Eff JsVal :=
  if nullish v
  then throw (VError "TypeError"
                ("Cannot read properties of " ++ to_string v ++ " (reading '" ++ k ++ "')"))
  else ret (prop v k).

(** Whether [String(v)] throws.  The conversion of an object calls its
    toString and, if that is not callable, its valueOf: an object that has
    an own toString property which is not a function (no value here is one)
    is left with Object.prototype.valueOf, which returns the object, and
    the conversion fails. *)
Definition String_throws (v : JsVal) : bool :=
  match v with
  | VObj fs => match lookup "toString" fs with Some _ => true | None => false end
  | _ => false
  end.

(** [String(v)] for a value of any kind. *)
Definition String_of (v : JsVal) : Eff string :=
  if String_throws v
  then throw (VError "TypeError" "Cannot convert object to primitive value")
  else ret (to_string v).

(** [error instanceof Error ? error : new Error(String(error))] in a catch
    block, [error] being whatever was thrown. *)
Definition caught_Error (error : JsVal) : Eff JsVal :=
  if instanceof_Error error then ret error
  else message <- String_of error ;; ret (new_Error message).

(** A promise that is already settled: the bodies of the async methods
    modelled here contain no await. *)
Inductive Promise : Type :=
| Fulfilled (v : JsVal)
| Rejected (reason : JsVal).

(** [async () => body]. *)
Definition async (body : Eff JsVal) : Eff Promise :=
  fun w =>
    match body w with
    | (Normal v, w') => (Normal (Fulfilled v), w')
    | (Throw e, w') => (Normal (Rejected e), w')
    end.

Definition empty_world : World := mkWorld [] [].

(** A variable captured by a closure is one of the [cells], known by its
    place: [new_cell] is its declaration [let x = v], [get_cell] a read and
    [set_cell] an assignment. *)
Definition new_cell (v : JsVal) : Eff nat :=
  fun w => (Normal (List.length (cells w)), mkWorld (console w) (cells w ++ [v])%list).

Definition get_cell (c : nat) : Eff JsVal :=
  fun w => (Normal (nth c (cells w) VUndefined), w).

Fixpoint replace_nth (c : nat) (v : JsVal) (l : list JsVal) : list JsVal :=
  match l, c with
  | [], _ => []
  | _ :: rest, O => v :: rest
  | x :: rest, S c' => x :: replace_nth c' v rest
  end.

Definition set_cell (c : nat) (v : JsVal) : Eff unit :=
  fun w => (Normal tt, mkWorld (console w) (replace_nth c v (cells w))).

(** [x + 1] for a counter: a variable that is initialised to 0 and only
    ever incremented holds a number. *)
Definition increment (v : JsVal) : JsVal :=
  match v with VNum n => VNum (n + 1) | _ => VUndefined end.

(** [a <= b] on numbers. *)
Definition js_le (a b : JsVal) : bool :=
  match a, b with VNum x, VNum y => (x <=? y)%Z | _, _ => false end.

(** [a > b] on numbers. *)
Definition js_gt (a b : JsVal) : bool :=
  match a, b with VNum x, VNum y => (y <? x)%Z | _, _ => false end.

(* ================================================================== *)
(** ** The rx-pipe module: core types *)
(* ================================================================== *)

Module RxPipe.

(** interface PipeContext<T>. *)
Record PipeContext := mkContext {
  ctx_value : JsVal;
  ctx_stopped : bool;
  ctx_error : JsVal;              (* Error | undefined *)
  ctx_metadata : JsVal;           (* Record<string, any> *)
  ctx_index : nat;
  ctx_total : nat
}.

Definition with_index (i : nat) (c : PipeContext) : PipeContext :=
  mkContext (ctx_value c) (ctx_stopped c) (ctx_error c) (ctx_metadata c) i (ctx_total c).

Definition with_stopped (b : bool) (c : PipeContext) : PipeContext :=
  mkContext (ctx_value c) b (ctx_error c) (ctx_metadata c) (ctx_index c) (ctx_total c).

Definition with_error (e : JsVal) (c : PipeContext) : PipeContext :=
  mkContext (ctx_value c) (ctx_stopped c) e (ctx_metadata c) (ctx_index c) (ctx_total c).

Definition with_metadata (m : JsVal) (c : PipeContext) : PipeContext :=
  mkContext (ctx_value c) (ctx_stopped c) (ctx_error c) m (ctx_index c) (ctx_total c).

(** The context as console.log receives it. *)
Definition context_object (c : PipeContext) : JsVal :=
  VObj [("value", ctx_value c); ("stopped", VBool (ctx_stopped c));
        ("error", ctx_error c); ("metadata", ctx_metadata c);
        ("index", VNum (Z.of_nat (ctx_index c)));
        ("total", VNum (Z.of_nat (ctx_total c)))].

(** type Operator<T, R> = (value: T, context?: PipeContext<T>) => PipeResult<R>.
    The result is the object the operator returns; the engine reads its
    value, stopped, error, metadata and debugName properties. *)
Definition Operator : Type := JsVal -> option PipeContext -> Eff JsVal.

(** A user function of one argument returning PipeResultOrValue<U>:
    the transform of [map], the predicate of [filter], the effect of [tap],
    the handler of [catchError]. *)
Definition Callback : Type := JsVal -> Eff JsVal.

(** errorHandling?: "stop" | "continue" | "retry". *)
Inductive ErrorHandling : Type := Stop | Continue | Retry.

Definition is_stop (p : option ErrorHandling) : bool :=
  match p with Some Stop => true | _ => false end.

(** interface PipeConfig, every key present ([None] is undefined). *)
Record PipeConfig := mkConfig {
  debug : option bool;
  errorHandling : option ErrorHandling;
  maxRetries : option Z
}.

(** One key of a PipeConfig object literal; the config argument of the
    constructor is the list of the keys it has. *)
Inductive ConfigKey : Type :=
| KDebug (v : option bool)
| KErrorHandling (v : option ErrorHandling)
| KMaxRetries (v : option Z).

Definition set_key (c : PipeConfig) (k : ConfigKey) : PipeConfig :=
  match k with
  | KDebug v => mkConfig v (errorHandling c) (maxRetries c)
  | KErrorHandling v => mkConfig (debug c) v (maxRetries c)
  | KMaxRetries v => mkConfig (debug c) (errorHandling c) v
  end.

Definition config_keys (c : PipeConfig) : list ConfigKey :=
  [KDebug (debug c); KErrorHandling (errorHandling c); KMaxRetries (maxRetries c)].

(** class Pipe<T>. *)
Record Pipe := mkPipe {
  context : PipeContext;
  operators : list Operator;
  config : PipeConfig
}.

(** constructor(initialValue, config = {}). *)
Definition new_Pipe (initialValue : JsVal) (cfg : list ConfigKey) : Pipe :=
  mkPipe
    (mkContext initialValue false VUndefined (VObj []) 0 0)
    []
    (fold_left set_key cfg (mkConfig (Some false) (Some Stop) (Some 3%Z))).

(** pipe(...operator). *)
Definition pipe (this : Pipe) (operator : list Operator) : Pipe :=
  let newPipe := new_Pipe (ctx_value (context this)) (config_keys (config this)) in
  mkPipe
    (mkContext (ctx_value (context this)) (ctx_stopped (context this))
               (ctx_error (context this)) (ctx_metadata (context this))
               (ctx_index (context this)) (List.length (operators this) + 1))
    (operators this ++ operator)%list
    (config newPipe).

(** createPipe(value, config?) and its shorthand of(value, config?)
    ([of] is a keyword here, hence [of_]). *)
Definition createPipe (value : JsVal) (cfg : option (list ConfigKey)) : Pipe :=
  new_Pipe value (match cfg with Some c => c | None => [] end).

Definition of_ (value : JsVal) (cfg : option (list ConfigKey)) : Pipe :=
  createPipe value cfg.

(* ------------------------------------------------------------------ *)
(** *** Utility functions *)

(** isPipeResult(value): value && typeof value === "object" && "value" in value,
    as the boolean its callers test. *)
Definition isPipeResult (value : JsVal) : bool :=
  truthy value && (typeof value =? "object")%string && has_property "value" value.

(** pipeResult(value, options = {}) = { value, ...options }. *)
Definition pipeResult (value : JsVal) (options : Fields) : JsVal :=
  VObj (assign [("value", value)] options).

Definition stop (value : JsVal) : JsVal :=
  pipeResult value [("stopped", VBool true); ("debugName", VStr "stop")].

Definition error (value : JsVal) (e : JsVal) : JsVal :=
  pipeResult value [("error", as_Error e); ("debugName", VStr "error")].

Definition metadata (value : JsVal) (md : JsVal) : JsVal :=
  pipeResult value [("metadata", md); ("debugName", VStr "metadata")].

(* ------------------------------------------------------------------ *)
(** *** Basic operators *)

Definition map (transform : Callback) : Operator :=
  fun value _ =>
    res <- transform value ;;
    if isPipeResult res then
      dn <- read_prop res "debugName" ;;
      ret (VObj (set_field "debugName" (VStr ("map / " ++ to_string dn)) (spread [] res)))
    else ret (pipeResult res [("debugName", VStr "map")]).

Definition filter (predicate : Callback) : Operator :=
  fun value _ =>
    res <- predicate value ;;
    pass <- (if isPipeResult res
             then rv <- read_prop res "value" ;; ret (truthy rv)
             else ret false) ;;
    if pass then ret (pipeResult value [("debugName", VStr "filter")])
    else ret (VObj (set_field "debugName" (VStr "filter / stop") (spread [] (stop value)))).

Definition tap (effect : Callback) : Operator :=
  fun value _ =>
    res <- effect value ;;
    if isPipeResult res then
      dn <- read_prop res "debugName" ;;
      ret (pipeResult value
             (set_field "debugName" (VStr ("tap / " ++ to_string dn)) (spread [] res)))
    else ret (pipeResult value [("debugName", VStr "tap")]).

Definition catchError (handler : option Callback) : Operator :=
  fun value context =>
    (* context?.error and context?.error?.message *)
    let context_error :=
      match context with Some c => ctx_error c | None => VUndefined end in
    let context_error_message :=
      if nullish context_error then VUndefined else prop context_error "message" in
    console_log [VStr "context";
                 match context with Some c => context_object c | None => VUndefined end;
                 context_error_message] ;;
    if negb (truthy context_error) then
      ret (pipeResult value [("debugName", VStr "catchError / no error")])
    else
      match handler with
      | None =>
          ret (pipeResult value
                 [("debugName", VStr "catchError"); ("error", VUndefined);
                  ("stopped", VBool false)])
      | Some h =>
          res <- h value ;;
          if isPipeResult res then
            rv <- read_prop res "value" ;;
            dn <- read_prop res "debugName" ;;
            ret (pipeResult rv
                   (set_field "debugName" (VStr ("catchError / " ++ to_string dn))
                      (spread [] res)))
          else
            ret (pipeResult res
                   [("debugName", VStr "catchError"); ("error", VUndefined);
                    ("stopped", VBool false)])
      end.

Definition throwError (e : string) : Operator :=
  fun value _ =>
    ret (VObj (set_field "debugName" (VStr "throwError") (spread [] (error value (VStr e))))).

(** retry(times = 3): the parameter is not used by the body. *)
Definition retry (times : option Z) : Operator :=
  fun value _ => ret (pipeResult value [("debugName", VStr "retry")]).

(** take(count): the factory declares the counter [taken], the operator
    increments it on every call. *)
Definition take (count : Z) : Eff Operator :=
  taken <- new_cell (VNum 0) ;;
  ret (fun value _ =>
         n <- get_cell taken ;;
         set_cell taken (increment n) ;;
         if js_le (increment n) (VNum count)
         then ret (pipeResult value [("debugName", VStr "take")])
         else ret (VObj (set_field "debugName" (VStr "take / stop")
                           (spread [] (stop value))))).

(** skip(count). *)
Definition skip (count : Z) : Eff Operator :=
  skipped <- new_cell (VNum 0) ;;
  ret (fun value _ =>
         n <- get_cell skipped ;;
         set_cell skipped (increment n) ;;
         if js_gt (increment n) (VNum count)
         then ret (pipeResult value [("debugName", VStr "skip")])
         else ret (VObj (set_field "debugName" (VStr "skip / stop")
                           (spread [] (stop value))))).

(* ------------------------------------------------------------------ *)
(** *** Operator composition *)

(** The reduce of [compose] from accumulator [acc] on, [isStopped] being
    the local flag its callback reads and sets.  The operators are called
    with the value alone. *)
Fixpoint compose_reduce (operators : list Operator) (acc : JsVal) (isStopped : bool)
    : Eff JsVal :=
  match operators with
  | [] => ret acc
  | operator :: rest =>
      if isStopped then
        compose_reduce rest
          (pipeResult VUndefined [("debugName", VStr "compose / stop")]) isStopped
      else
        val <- read_prop acc "value" ;;
        result <- operator val None ;;
        result_stopped <- read_prop result "stopped" ;;
        let isStopped := if truthy result_stopped then true else isStopped in
        result_value <- read_prop result "value" ;;
        acc_debugName <- read_prop acc "debugName" ;;
        result_debugName <- read_prop result "debugName" ;;
        compose_reduce rest
          (pipeResult result_value
             (set_field "debugName"
                (VStr (to_string acc_debugName ++ " / " ++ to_string result_debugName))
                (spread [] result)))
          isStopped
  end.

(** compose(...operators). *)
Definition compose (operators : list Operator) : Operator :=
  fun value _ =>
    compose_reduce operators (pipeResult value [("debugName", VStr "compose")]) false.

(* ------------------------------------------------------------------ *)
(** *** Pipe.execute *)

(** The variables of [execute] that live across iterations. *)
Record LoopState := mkLoop {
  currentValue : JsVal;
  currentContext : PipeContext
}.

(** The closure debugLog({ index }), given the variables it reads. *)
Definition debugLog (index : nat) (operatorName : JsVal) (oldValue : JsVal)
    (st : LoopState) : Eff unit :=
  console_log
    [VStr ("%c Pipe step " ++ string_of_nat (index + 1) ++ ":");
     VStr "color:#3f3a";
     VObj [("operator", operatorName); ("input", oldValue);
           ("output", currentValue st);
           ("context", context_object (currentContext st))]].

(** One turn of the for loop, for operator [op] at index [i].  The only
    statements of the try block that can throw are the call and the read of
    result.value (see [read_prop_after_value]); both come before
    currentValue is assigned, so the catch block sees it unchanged.  The
    catch block itself throws when String(error) does: that throw leaves
    the loop. *)
Definition iteration (cfg : PipeConfig) (i : nat) (op : Operator) (st : LoopState)
    : Eff LoopState :=
  let operatorName := "Operator " ++ string_of_nat (i + 1) in
  let ctx := with_index i (currentContext st) in
  let oldValue := currentValue st in
  let dbg := match debug cfg with Some true => true | _ => false end in
  try_catch
    (result <- op (currentValue st) (Some ctx) ;;
     console_log [VStr "result"; result] ;;
     value <- read_prop result "value" ;;
     debugName <- read_prop result "debugName" ;;
     let operatorName := coalesce debugName (VStr operatorName) in
     result_stopped <- read_prop result "stopped" ;;
     if ctx_stopped ctx || truthy result_stopped then
       let st' := mkLoop oldValue (with_stopped true ctx) in
       when dbg (debugLog i operatorName oldValue st') ;;
       ret st'
     else
       result_error <- read_prop result "error" ;;
       let ctx1 :=
         if truthy result_error then
           let c := with_error result_error ctx in
           if is_stop (errorHandling cfg) then with_stopped true c else c
         else ctx in
       result_metadata <- read_prop result "metadata" ;;
       let ctx2 :=
         if truthy result_metadata
         then with_metadata (VObj (spread (spread [] (ctx_metadata ctx1)) result_metadata)) ctx1
         else ctx1 in
       let st' := mkLoop value ctx2 in
       when dbg (debugLog i operatorName oldValue st') ;;
       ret st')
    (fun error =>
       err <- caught_Error error ;;
       let ctx1 := with_error err ctx in
       ret (mkLoop oldValue
              match errorHandling cfg with
              | Some Stop => with_stopped true ctx1
              | Some Continue => ctx1
              | Some Retry => ctx1
              | None => ctx1
              end)).

(** The for loop from index [i] on. *)
Fixpoint run_from (cfg : PipeConfig) (ops : list Operator) (i : nat) (st : LoopState)
    : Eff LoopState :=
  match ops with
  | [] => ret st
  | op :: rest => st' <- iteration cfg i op st ;; run_from cfg rest (S i) st'
  end.

(** The object literal that [execute] returns. *)
Record PipeResult := mkResult {
  res_value : JsVal;
  res_stopped : bool;
  res_error : JsVal;
  res_metadata : JsVal
}.

Definition execute (this : Pipe) : Eff PipeResult :=
  let st0 := mkLoop (ctx_value (context this)) (context this) in
  st <- run_from (config this) (operators this) 0 st0 ;;
  ret (mkResult (currentValue st) (ctx_stopped (currentContext st))
         (ctx_error (currentContext st)) (ctx_metadata (currentContext st))).

(** Pipe.value(). *)
Definition value (this : Pipe) : Eff JsVal :=
  result <- execute this ;;
  if truthy (res_error result) && is_stop (errorHandling (config this)) then
    message <- read_prop (res_error result) "message" ;;
    console_log [VStr "error"; message] ;;
    ret VUndefined
  else ret (res_value result).

(** Pipe.toPromise(). *)
Definition toPromise (this : Pipe) : Eff Promise :=
  async (result <- execute this ;;
         if truthy (res_error result) then throw (res_error result)
         else ret (res_value result)).

(** f?.(x) for an optional callback. *)
Definition call_opt (f : option Callback) (x : JsVal) : Eff unit :=
  match f with Some g => g x ;; ret tt | None => ret tt end.

(** Pipe.subscribe(onNext?, onError?, onComplete?). *)
Definition subscribe (this : Pipe) (onNext onError onComplete : option Callback)
    : Eff unit :=
  try_catch
    (result <- execute this ;;
     if truthy (res_error result) then call_opt onError (res_error result)
     else call_opt onNext (res_value result) ;; call_opt onComplete VUndefined)
    (fun error =>
       (* onError?.(...): the argument is evaluated only if onError is there *)
       match onError with
       | Some g => err <- caught_Error error ;; g err ;; ret tt
       | None => ret tt
       end).

Definition getContext (this : Pipe) : PipeContext := context this.

Definition length (this : Pipe) : nat := List.length (operators this).

End RxPipe.

(* ================================================================== *)
(** ** pipe/pipe-operators.ts: PipeManagerImpl *)
(* ================================================================== *)

Module PipeOperators.

(** interface PipeContext<T>; an absent optional key is undefined. *)
Record PipeContext := mkContext {
  value : JsVal;
  stopped : bool;
  error : JsVal;
  metadata : JsVal
}.

(** class PipeManagerImpl: the one field of an instance is its _context,
    so a manager is modelled by the context it wraps. *)
Definition PipeManager : Type := PipeContext.

Definition createManager (context : PipeContext) : PipeManager := context.

Definition isStopped (this : PipeManager) : bool := stopped this.

Definition hasError (this : PipeManager) : bool := truthy (error this).

(** PipeOperator<T, R>, PipePredicate<T>, PipeEffect<T>. *)
Definition PipeOperator : Type := JsVal -> Eff JsVal.

Definition stop (this : PipeManager) : PipeManager :=
  createManager (mkContext (value this) true (error this) (metadata this)).

Definition resume (this : PipeManager) : PipeManager :=
  createManager (mkContext (value this) false VUndefined (metadata this)).

Definition reset (this : PipeManager) : PipeManager :=
  createManager (mkContext (value this) false VUndefined VUndefined).

Definition map (this : PipeManager) (operator : PipeOperator) : Eff PipeManager :=
  if stopped this || truthy (error this) then
    ret (createManager (mkContext (value this) (stopped this) (error this) VUndefined))
  else
    try_catch
      (result <- operator (value this) ;;
       ret (createManager (mkContext result false VUndefined (metadata this))))
      (fun e =>
         err <- caught_Error e ;;
         ret (createManager (mkContext (value this) true err VUndefined))).

Definition tap (this : PipeManager) (effect : PipeOperator) : Eff PipeManager :=
  if negb (stopped this) && negb (truthy (error this)) then
    try_catch
      (effect (value this) ;; ret (createManager this))
      (fun e =>
         err <- caught_Error e ;;
         ret (createManager (mkContext (value this) true err (metadata this))))
  else ret (createManager this).

Definition filter (this : PipeManager) (predicate : PipeOperator) : Eff PipeManager :=
  if stopped this || truthy (error this) then ret (createManager this)
  else
    try_catch
      (b <- predicate (value this) ;;
       if truthy b
       then ret (createManager (mkContext (value this) false (error this) (metadata this)))
       else ret (createManager (mkContext (value this) true (error this) (metadata this))))
      (fun e =>
         err <- caught_Error e ;;
         ret (createManager (mkContext (value this) true err (metadata this)))).

(** catch(handler), the handler taking (error, value). *)
Definition catch (this : PipeManager) (handler : JsVal -> JsVal -> Eff JsVal)
    : Eff PipeManager :=
  if truthy (error this) then
    try_catch
      (result <- handler (error this) (value this) ;;
       ret (createManager (mkContext result false VUndefined (metadata this))))
      (fun newError =>
         err <- caught_Error newError ;;
         ret (createManager (mkContext (value this) true err VUndefined)))
  else
    ret (createManager (mkContext (value this) (stopped this) (error this) (metadata this))).

(** Case analysis on a value that keeps the equation, for the termination
    proof of [retry]. *)
Definition inspect {A} (a : A) : { b : A | a = b } := exist _ a eq_refl.

(** retry(times): recursion on the retry budget. *)
Equations? retry (times : Z) (this : PipeManager) : PipeManager
  by wf (Z.to_nat times) lt :=
  retry times this with inspect (stopped this && truthy (error this) && (0 <? times)%Z) := {
    | exist _ true _ =>
        retry (times - 1)
          (createManager (mkContext (value this) false VUndefined (metadata this)));
    | exist _ false _ => createManager this }.
Proof.
  apply andb_prop in e as [_ Hpos]. apply Z.ltb_lt in Hpos. lia.
Qed.

(** when(condition, operator). *)
Definition when (this : PipeManager) (condition operator : PipeOperator)
    : Eff PipeManager :=
  if stopped this || truthy (error this) then
    ret (createManager (mkContext (value this) (stopped this) (error this) VUndefined))
  else
    try_catch
      (c <- condition (value this) ;;
       if truthy c then
         result <- operator (value this) ;;
         ret (createManager (mkContext result false VUndefined (metadata this)))
       else
         ret (createManager
                (mkContext (value this) (stopped this) (error this) (metadata this))))
      (fun e =>
         err <- caught_Error e ;;
         ret (createManager (mkContext (value this) true err VUndefined))).

(** unless(condition, operator) = when(value => !condition(value), operator). *)
Definition unless (this : PipeManager) (condition operator : PipeOperator)
    : Eff PipeManager :=
  when this (fun v => c <- condition v ;; ret (VBool (negb (truthy c)))) operator.

(** The for loop of [switch] over the cases: the result of the operator of
    the first case whose condition holds, if there is one. *)
Fixpoint switch_cases (cases : list (PipeOperator * PipeOperator)) (v : JsVal)
    : Eff (option JsVal) :=
  match cases with
  | [] => ret None
  | (condition, operator) :: rest =>
      c <- condition v ;;
      if truthy c then result <- operator v ;; ret (Some result)
      else switch_cases rest v
  end.

(** switch(cases, defaultOperator?). *)
Definition switch (this : PipeManager) (cases : list (PipeOperator * PipeOperator))
    (defaultOperator : option PipeOperator) : Eff PipeManager :=
  if stopped this || truthy (error this) then
    ret (createManager (mkContext (value this) (stopped this) (error this) VUndefined))
  else
    try_catch
      (found <- switch_cases cases (value this) ;;
       match found with
       | Some result =>
           ret (createManager (mkContext result false VUndefined (metadata this)))
       | None =>
           match defaultOperator with
           | Some d =>
               result <- d (value this) ;;
               ret (createManager (mkContext result false VUndefined (metadata this)))
           | None =>
               ret (createManager
                      (mkContext (value this) true
                         (new_Error "No matching case found in switch statement")
                         VUndefined))
           end
       end)
      (fun e =>
         err <- caught_Error e ;;
         ret (createManager (mkContext (value this) true err VUndefined))).

Definition toValue (this : PipeManager) : JsVal := value this.

Definition toPromise (this : PipeManager) : Promise :=
  if truthy (error this) then Rejected (error this) else Fulfilled (value this).

Definition createPipe (v : JsVal) : PipeManager :=
  mkContext v false VUndefined VUndefined.

Definition pipe1 (v : JsVal) : PipeManager := createPipe v.

End PipeOperators.

(* ================================================================== *)
(** ** LinqJs: the list operations *)
(* ================================================================== *)

Module LinqJs.

Section Items.

Variable T : Type.

(** class LinqJs<T>: the one field is the list.  take and skip assign
    this.list and return this: they are modelled by the list the receiver
    holds after the call. *)
Definition LinqJs : Type := list T.

(** Array.prototype.slice(start, end) for integer bounds: a negative bound
    counts from the end, and both are clamped to the array. *)
Definition relative_index (len k : Z) : Z :=
  if (k <? 0)%Z then Z.max (len + k) 0 else Z.min k len.

Definition slice (l : list T) (first last : Z) : list T :=
  let len := Z.of_nat (List.length l) in
  let from := relative_index len first in
  let to := relative_index len last in
  firstn (Z.to_nat (to - from)) (skipn (Z.to_nat from) l).

(** slice(start): to the end of the array. *)
Definition slice_from (l : list T) (first : Z) : list T :=
  slice l first (Z.of_nat (List.length l)).

Definition take (this : LinqJs) (count : Z) : LinqJs := slice this 0 count.

Definition skip (this : LinqJs) (count : Z) : LinqJs := slice_from this count.

Definition count (this : LinqJs) : Z := Z.of_nat (List.length this).

Definition toList (this : LinqJs) : list T := this.

End Items.

Arguments slice {T} l first last.
Arguments slice_from {T} l first.
Arguments take {T} this count.
Arguments skip {T} this count.
Arguments count {T} this.
Arguments toList {T} this.

End LinqJs.

(* ================================================================== *)
(** ** Vocabulary of the statements *)
(* ================================================================== *)

Import RxPipe.

(** A pure operator: it returns the result [f v] whatever the context and
    the world, and leaves the world as it is. *)
Definition pure_operator (op : Operator) (f : JsVal -> JsVal) : Prop :=
  forall v c w, op v c w = (Normal (f v), w).


(** fn(...f2(f1(v))): each operator is applied to the value of the result
    of the one before. *)
Definition chain_value (fs : list (JsVal -> JsVal)) (v : JsVal) : JsVal :=
  fold_left (fun x f => prop (f x) "value") fs v.

(** The state [execute] starts its loop in. *)
Definition initial_state (p : Pipe) : LoopState :=
  mkLoop (ctx_value (context p)) (context p).

(* ------------------------------------------------------------------ *)
(** *** Sample callbacks and pipes *)

(** x => x * 2, x => x + 1, x => x > 10, x => x > 3, on numbers. *)
Definition times2_fn (x : JsVal) : JsVal :=
  match x with VNum n => VNum (n * 2) | _ => VUndefined end.

Definition plus1_fn (x : JsVal) : JsVal :=
  match x with VNum n => VNum (n + 1) | _ => VUndefined end.

Definition times2 : Callback := fun x => ret (times2_fn x).

Definition plus1 : Callback := fun x => ret (plus1_fn x).

Definition gt10 : Callback :=
  fun x => ret (match x with VNum n => VBool (10 <? n)%Z | _ => VBool false end).

Definition gt3 : Callback :=
  fun x => ret (match x with VNum n => VBool (3 <? n)%Z | _ => VBool false end).

(** () => { throw new Error("boom") }. *)
Definition boom : Callback := fun _ => throw (new_Error "boom").

(** x => { seen.push(x) }: appends its argument to the captured cells. *)
Definition push : Callback :=
  fun x w => (Normal VUndefined, mkWorld (console w) (cells w ++ [x])%list).

(** () => 42. *)
Definition h42 : Callback := fun _ => ret (VNum 42).

(** An operator that records each of its calls in the captured cells,
    throws when none was recorded before and returns { value: value + 1 }
    on every later call:
    (value) => { calls.push("call"); if (calls.length === 1) throw new Error("flaky");
                 return { value: value + 1 } }. *)
Definition flaky : Operator :=
  fun x _ w =>
    let w' := mkWorld (console w) (cells w ++ [VStr "call"])%list in
    match cells w with
    | [] => (Throw (new_Error "flaky"), w')
    | _ :: _ =>
        (Normal (VObj [("value", plus1_fn x)]), w')
    end.

(** The same as a PipeOperator of pipe-operators.ts, returning the value. *)
Definition flaky_fn : PipeOperators.PipeOperator :=
  fun x w =>
    let w' := mkWorld (console w) (cells w ++ [VStr "call"])%list in
    match cells w with
    | [] => (Throw (new_Error "flaky"), w')
    | _ :: _ => (Normal (plus1_fn x), w')
    end.

(** createPipe(5).pipe(filter(x => x > 10)). *)
Definition filter_scenario : Pipe :=
  pipe (createPipe (VNum 5) None) [filter gt10].

(** createPipe(5).pipe(filter(x => x > 10), tap(x => { seen.push(x) })). *)
Definition stop_then_tap : Pipe :=
  pipe (createPipe (VNum 5) None) [filter gt10; tap push].

(** createPipe(5).pipe(map(() => { throw new Error("boom") }), catchError(() => 42)). *)
Definition throw_then_catch (cfg : option (list ConfigKey)) : Pipe :=
  pipe (createPipe (VNum 5) cfg) [map boom; catchError (Some h42)].

(* ------------------------------------------------------------------ *)
(** *** Thrown values and the conversion of the catch blocks *)

(** The TypeError of a String(v) that fails. *)
Definition conversion_TypeError : JsVal :=
  VError "TypeError" "Cannot convert object to primitive value".

(** A value that String converts, and to the text [to_string] gives: not
    an object with an own toString property, and, for a number, an integer
    below 10^21 in size. *)
Definition convertible (v : JsVal) : bool :=
  negb (String_throws v) &&
  match v with
  | VNum n => (Z.abs n <? 10 ^ 21)%Z
  | _ => true
  end.

(** An operator that, whenever it throws, throws a value String converts. *)
Definition throws_convertible (op : Operator) : Prop :=
  forall v c w e w', op v c w = (Throw e, w') -> convertible e = true.

(** { toString: null }, and () => { throw { toString: null } }. *)
Definition no_toString : JsVal := VObj [("toString", VNull)].

Definition throw_no_toString : Operator := fun _ _ => throw no_toString.



(* ------------------------------------------------------------------ *)
(** *** Objects with distinct keys *)

Definition keys (fs : Fields) : list string := List.map fst fs.

(** An object has each key once; the predicate says so of the outermost
    level of a value. *)
Definition unique_keys (v : JsVal) : Prop :=
  match v with
  | VObj fs => NoDup (keys fs)
  | _ => True
  end.

(** The result object of [execute] for the final state of its loop. *)
Definition result_of (st : LoopState) : PipeResult :=
  mkResult (currentValue st) (ctx_stopped (currentContext st))
    (ctx_error (currentContext st)) (ctx_metadata (currentContext st)).

(** The world after calling an operator on each of the values in turn. *)
Fixpoint after_calls (op : Operator) (vs : list JsVal) (w : World) : World :=
  match vs with
  | [] => w
  | v :: rest => after_calls op rest (snd (op v None w))
  end.

(** The world after [n] runs of [execute] on the same pipe. *)
Fixpoint after_executions (p : Pipe) (n : nat) (w : World) : World :=
  match n with
  | O => w
  | S k => after_executions p k (snd (execute p w))
  end.

(** A captured variable at place [c] that holds the number [k]. *)
Definition counter_at (c : nat) (k : Z) (w : World) : Prop :=
  c < List.length (cells w) /\ nth c (cells w) VUndefined = VNum k.

(** A result that is an object with distinct keys. *)
Definition result_object (r : JsVal) : Prop :=
  match r with
  | VObj fs => NoDup (keys fs)
  | _ => False
  end.

(** What [compose] returns once an operator has stopped and another one
    was still to come. *)
Definition compose_stop_marker : JsVal :=
  pipeResult VUndefined [("debugName", VStr "compose / stop")].



(** m.map(f1).map(f2)...map(fn) on a PipeManagerImpl. *)
Fixpoint map_all (m : PipeOperators.PipeManager) (fs : list PipeOperators.PipeOperator)
    : Eff PipeOperators.PipeManager :=
  match fs with
  | [] => ret m
  | f :: rest => m' <- PipeOperators.map m f ;; map_all m' rest
  end.

(** A function of values as a callback without effects. *)
Definition pure_callback (g : JsVal -> JsVal) : Callback := fun x => ret (g x).

(** The pairing of a PipeManagerImpl context: an error that is set comes
    with the stopped flag. *)
Definition error_means_stopped (m : PipeOperators.PipeManager) : Prop :=
  truthy (PipeOperators.error m) = true -> PipeOperators.stopped m = true.

(** A manager that is neither stopped nor failed. *)
Definition running (m : PipeOperators.PipeManager) : Prop :=
  PipeOperators.stopped m = false /\ truthy (PipeOperators.error m) = false.

(** A case of switch whose condition, on [v], has no effect and does not
    hold. *)
Definition never_matches (v : JsVal)
    (co : PipeOperators.PipeOperator * PipeOperators.PipeOperator) : Prop :=
  forall w, exists b, fst co v w = (Normal b, w) /\ truthy b = false.


(* ================================================================== *)
(** ** Basic facts about values and effects *)
(* ================================================================== *)


Lemma truthy_not_nullish v : truthy v = true -> nullish v = false.
Proof. destruct v; simpl; congruence. Qed.

Lemma truthy_as_Error e : truthy (as_Error e) = true.
Proof. destruct e; reflexivity. Qed.

Lemma instanceof_as_Error e : instanceof_Error (as_Error e) = true.
Proof. destruct e; reflexivity. Qed.

(** Reading a property of a value that is not undefined or null never
    throws and leaves the world alone. *)
Lemma read_prop_defined v k w :
  nullish v = false -> read_prop v k w = (Normal (prop v k), w).
Proof. intros H. unfold read_prop. rewrite H. reflexivity. Qed.

(** Once result.value has been read, no later property read of the same
    result can throw: the catch block of [iteration] is only entered
    before currentValue is assigned. *)
Lemma read_prop_after_value result x w w' k w2 :
  read_prop result "value" w = (Normal x, w') ->
  read_prop result k w2 = (Normal (prop result k), w2).
Proof.
  unfold read_prop. destruct (nullish result); [discriminate|]. reflexivity.
Qed.

(** Primitive values are never taken for results. *)
Lemma isPipeResult_primitive v :
  typeof v <> "object" -> isPipeResult v = false.
Proof.
  intros H. unfold isPipeResult.
  destruct (typeof v =? "object")%string eqn:E.
  - apply String.eqb_eq in E. contradiction.
  - rewrite andb_false_r. reflexivity.
Qed.

(** A value String converts is one whose conversion does not throw. *)
Lemma convertible_String e : convertible e = true -> String_throws e = false.
Proof.
  unfold convertible. destruct (String_throws e); [discriminate | reflexivity].
Qed.

(** The conversion of the catch blocks: the Error [as_Error] describes
    when String does not throw, the TypeError of String when it does. *)
Lemma caught_Error_returns e w :
  String_throws e = false -> caught_Error e w = (Normal (as_Error e), w).
Proof.
  intros H. unfold caught_Error, as_Error, String_of, bind, ret.
  destruct (instanceof_Error e); [reflexivity|]. rewrite H. reflexivity.
Qed.

Lemma caught_Error_throws e w :
  String_throws e = true -> caught_Error e w = (Throw conversion_TypeError, w).
Proof.
  intros H. unfold caught_Error, String_of, bind, throw.
  destruct e; try discriminate H. simpl in *. rewrite H. reflexivity.
Qed.

Lemma caught_Error_cases e w :
  (String_throws e = false /\ caught_Error e w = (Normal (as_Error e), w)) \/
  (String_throws e = true /\ caught_Error e w = (Throw conversion_TypeError, w)).
Proof.
  destruct (String_throws e) eqn:E.
  - right. split; [reflexivity | apply caught_Error_throws; exact E].
  - left. split; [reflexivity | apply caught_Error_returns; exact E].
Qed.

(** Unfold the monad and the engine step, then split on every test. *)
Ltac unfold_eff :=
  unfold iteration, try_catch, bind, read_prop, ret, throw, when, debugLog,
    console_log in *.

Ltac split_tests :=
  repeat first
    [ progress (unfold ret, throw in *)
    | progress (simpl in *)
    | match goal with
      | |- context [if ?b then _ else _] => destruct b eqn:?
      | |- context [match ?x with _ => _ end] => destruct x eqn:?
      | H : (_, _) = (_, _) |- _ => inversion H; subst; clear H
      end ].

(** In a turn of the loop, settle the conversion of the catch block. *)
Ltac settle_caught e w :=
  let Hs := fresh "Hconv" in
  let Hc := fresh "Hcaught" in
  destruct (caught_Error_cases e w) as [[Hs Hc] | [Hs Hc]]; rewrite Hc.

(* ================================================================== *)
(** ** One turn of the loop *)
(* ================================================================== *)

Section Step.

Variable cfg : PipeConfig.
Variable i : nat.
Variable op : Operator.
Variable st : LoopState.
Variable w : World.

Let ctx := with_index i (currentContext st).

(** A turn whose operator returns does not throw. *)
Lemma iteration_returns_after_return r w1 :
  op (currentValue st) (Some ctx) w = (Normal r, w1) ->
  exists st' w', iteration cfg i op st w = (Normal st', w').
Proof.
  intros H. unfold_eff. subst ctx. rewrite H.
  destruct (nullish r) eqn:Hr; simpl.
  - unfold caught_Error. simpl. split_tests; eauto.
  - split_tests; eauto.
Qed.

(** A turn throws only when its operator throws a value that String does
    not convert, and then it throws the TypeError of String. *)
Lemma iteration_total :
  (forall e w1, op (currentValue st) (Some ctx) w = (Throw e, w1) -> convertible e = true) ->
  exists st' w', iteration cfg i op st w = (Normal st', w').
Proof.
  intros H. destruct (op (currentValue st) (Some ctx) w) as [[r|e] w1] eqn:Hop.
  - exact (iteration_returns_after_return r w1 Hop).
  - unfold_eff. subst ctx. rewrite Hop.
    rewrite (caught_Error_returns e w1 (convertible_String e (H e w1 eq_refl))).
    eauto.
Qed.

Lemma iteration_throws_TypeError t w' :
  iteration cfg i op st w = (Throw t, w') -> t = conversion_TypeError.
Proof.
  unfold_eff. subst ctx. destruct (op _ _ w) as [[r|e] w1].
  - destruct (nullish r) eqn:Hr; simpl.
    + unfold caught_Error. simpl. split_tests; intros; split_tests; discriminate.
    + split_tests; intros; split_tests; discriminate.
  - settle_caught e w1; intros E; inversion E; reflexivity.
Qed.

(** The variables closures write to are left as the operator call left
    them: whatever the step does with the result, the call took place. *)
Lemma iteration_cells :
  cells (snd (iteration cfg i op st w)) =
  cells (snd (op (currentValue st) (Some ctx) w)).
Proof.
  unfold_eff. subst ctx. destruct (op _ _ w) as [[r|e] w1].
  - destruct (nullish r) eqn:Hr; simpl.
    + unfold caught_Error. simpl. split_tests; reflexivity.
    + split_tests; reflexivity.
  - settle_caught e w1; reflexivity.
Qed.

(** The operator throws a value that String converts. *)
Lemma iteration_throw e w1 :
  op (currentValue st) (Some ctx) w = (Throw e, w1) ->
  String_throws e = false ->
  iteration cfg i op st w =
  (Normal (mkLoop (currentValue st)
             (with_stopped (ctx_stopped ctx || is_stop (errorHandling cfg))
                (with_error (as_Error e) ctx))), w1).
Proof.
  intros H Hc. unfold_eff. subst ctx. rewrite H.
  rewrite (caught_Error_returns e w1 Hc).
  destruct (errorHandling cfg) as [[]|]; simpl;
    rewrite ?orb_true_r, ?orb_false_r; reflexivity.
Qed.

(** The operator throws a value that String does not convert: the throw of
    the catch block leaves the turn. *)
Lemma iteration_throw_escapes e w1 :
  op (currentValue st) (Some ctx) w = (Throw e, w1) ->
  String_throws e = true ->
  iteration cfg i op st w = (Throw conversion_TypeError, w1).
Proof.
  intros H Hc. unfold_eff. subst ctx. rewrite H.
  rewrite (caught_Error_throws e w1 Hc). reflexivity.
Qed.

(** What a turn that returns makes of a throw or of a return of its
    operator. *)
Lemma iteration_inv st' w' :
  iteration cfg i op st w = (Normal st', w') ->
  (exists e w1,
      op (currentValue st) (Some ctx) w = (Throw e, w1) /\
      st' = mkLoop (currentValue st)
              (with_stopped (ctx_stopped ctx || is_stop (errorHandling cfg))
                 (with_error (as_Error e) ctx))) \/
  (exists r w1, op (currentValue st) (Some ctx) w = (Normal r, w1)).
Proof.
  intros E. destruct (op (currentValue st) (Some ctx) w) as [[r|e] w1] eqn:Hop.
  - right. eauto.
  - left. exists e, w1. split; [reflexivity|].
    destruct (String_throws e) eqn:Hc.
    + rewrite (iteration_throw_escapes e w1 Hop Hc) in E. discriminate.
    + rewrite (iteration_throw e w1 Hop Hc) in E. inversion E. reflexivity.
Qed.

(** In a stopped context the value and the flag stay as they are. *)
Lemma iteration_frozen st' w' :
  ctx_stopped (currentContext st) = true ->
  iteration cfg i op st w = (Normal st', w') ->
  currentValue st' = currentValue st /\ ctx_stopped (currentContext st') = true.
Proof.
  intros Hs E. destruct (iteration_inv st' w' E) as [(e & w1 & Hop & ->) | (r & w1 & Hop)].
  - subst ctx. simpl. rewrite Hs. auto.
  - revert E. unfold_eff. subst ctx. rewrite Hop. simpl. rewrite Hs. simpl.
    destruct (nullish r) eqn:Hr; simpl.
    + unfold caught_Error. simpl. split_tests; intros; split_tests; auto.
    + split_tests; intros; split_tests; auto.
Qed.

(** The operator returns a result whose stopped flag is truthy. *)
Lemma iteration_stop_result r w1 st' w' :
  op (currentValue st) (Some ctx) w = (Normal r, w1) ->
  nullish r = false ->
  truthy (prop r "stopped") = true ->
  iteration cfg i op st w = (Normal st', w') ->
  currentValue st' = currentValue st /\ ctx_stopped (currentContext st') = true.
Proof.
  intros Hop Hr Hs. unfold_eff. subst ctx. rewrite Hop. simpl. rewrite Hr. simpl.
  rewrite Hs, orb_true_r. split_tests; intros; split_tests; auto.
Qed.

(** The operator returns a result that does not stop, in a context that is
    not stopped. *)
Lemma iteration_pass r w1 st' w' :
  op (currentValue st) (Some ctx) w = (Normal r, w1) ->
  ctx_stopped (currentContext st) = false ->
  nullish r = false ->
  truthy (prop r "stopped") = false ->
  iteration cfg i op st w = (Normal st', w') ->
  currentValue st' = prop r "value" /\
  ctx_stopped (currentContext st') =
    truthy (prop r "error") && is_stop (errorHandling cfg) /\
  ctx_error (currentContext st') =
    (if truthy (prop r "error") then prop r "error" else ctx_error (currentContext st)).
Proof.
  intros Hop Hc Hr Hs. unfold_eff. subst ctx. rewrite Hop. simpl. rewrite Hr. simpl.
  rewrite Hs, Hc. simpl.
  split_tests; intros; split_tests; auto.
Qed.

(** An error that is set stays set. *)
Lemma iteration_error_kept st' w' :
  truthy (ctx_error (currentContext st)) = true ->
  iteration cfg i op st w = (Normal st', w') ->
  truthy (ctx_error (currentContext st')) = true.
Proof.
  intros He E. destruct (iteration_inv st' w' E) as [(e & w1 & Hop & ->) | (r & w1 & Hop)].
  - simpl. apply truthy_as_Error.
  - revert E. unfold_eff. subst ctx. rewrite Hop.
    destruct (nullish r) eqn:Hr; simpl.
    + unfold caught_Error. simpl. split_tests; intros; split_tests; auto.
    + split_tests; intros; split_tests; auto.
Qed.

(** A result whose error is not truthy leaves the error of the context as
    it is. *)
Lemma iteration_error_unchanged r w1 st' w' :
  op (currentValue st) (Some ctx) w = (Normal r, w1) ->
  nullish r = false ->
  truthy (prop r "error") = false ->
  iteration cfg i op st w = (Normal st', w') ->
  ctx_error (currentContext st') = ctx_error (currentContext st).
Proof.
  intros Hop Hr He. unfold_eff. subst ctx. rewrite Hop. simpl. rewrite Hr. simpl. rewrite He.
  split_tests; intros; split_tests; auto.
Qed.

End Step.

(* ================================================================== *)
(** ** The loop *)
(* ================================================================== *)

(** The loop returns when every operator that throws throws a value that
    String converts. *)
Lemma run_from_total cfg ops : forall i st w,
  Forall throws_convertible ops ->
  exists st' w', run_from cfg ops i st w = (Normal st', w').
Proof.
  induction ops as [|op rest IH]; intros i st w H; simpl.
  - unfold ret. eauto.
  - inversion H as [|? ? Hop Hrest]; subst. unfold bind.
    destruct (iteration_total cfg i op st w) as (st1 & w1 & E).
    { intros e w1 He. exact (Hop _ _ _ _ _ He). }
    rewrite E. apply IH. exact Hrest.
Qed.

(** What the loop throws, if it throws, is the TypeError of String. *)
Lemma run_from_throws_TypeError cfg ops : forall i st w t w',
  run_from cfg ops i st w = (Throw t, w') -> t = conversion_TypeError.
Proof.
  induction ops as [|op rest IH]; intros i st w t w' H; simpl in H.
  - discriminate.
  - unfold bind in H. destruct (iteration cfg i op st w) as [[s|e] w2] eqn:E.
    + eapply IH; exact H.
    + inversion H; subst. eapply iteration_throws_TypeError; exact E.
Qed.

(** The loop over [pre ++ post] is the loop over [pre] followed by the loop
    over [post], the index running on. *)
Lemma run_from_app cfg pre post : forall i st w st1 w1,
  run_from cfg pre i st w = (Normal st1, w1) ->
  run_from cfg (pre ++ post) i st w = run_from cfg post (i + List.length pre) st1 w1.
Proof.
  induction pre as [|op rest IH]; intros i st w st1 w1 H; simpl in *.
  - unfold ret in H. inversion H; subst. rewrite Nat.add_0_r. reflexivity.
  - unfold bind in *. destruct (iteration cfg i op st w) as [[s|e] w2]; [|discriminate].
    rewrite (IH _ _ _ _ _ H). f_equal. lia.
Qed.

Lemma run_from_frozen cfg ops : forall i st w st' w',
  ctx_stopped (currentContext st) = true ->
  run_from cfg ops i st w = (Normal st', w') ->
  currentValue st' = currentValue st /\ ctx_stopped (currentContext st') = true.
Proof.
  induction ops as [|op rest IH]; intros i st w st' w' Hs H; simpl in H.
  - unfold ret in H. inversion H; subst. auto.
  - unfold bind in H. destruct (iteration cfg i op st w) as [[s|e] w2] eqn:E; [|discriminate].
    destruct (iteration_frozen _ _ _ _ _ _ _ Hs E) as [Hv Hs'].
    destruct (IH _ _ _ _ _ Hs' H) as [Hv' Hs'']. split; congruence.
Qed.

Lemma run_from_error_kept cfg ops : forall i st w st' w',
  truthy (ctx_error (currentContext st)) = true ->
  run_from cfg ops i st w = (Normal st', w') ->
  truthy (ctx_error (currentContext st')) = true.
Proof.
  induction ops as [|op rest IH]; intros i st w st' w' He H; simpl in H.
  - unfold ret in H. inversion H; subst. auto.
  - unfold bind in H. destruct (iteration cfg i op st w) as [[s|e] w2] eqn:E; [|discriminate].
    eapply IH; [|exact H]. eapply iteration_error_kept; eauto.
Qed.

(** [execute] in terms of its loop. *)
Lemma execute_run p w st w' :
  run_from (config p) (operators p) 0 (initial_state p) w = (Normal st, w') ->
  execute p w =
  (Normal (mkResult (currentValue st) (ctx_stopped (currentContext st))
             (ctx_error (currentContext st)) (ctx_metadata (currentContext st))), w').
Proof.
  intros H. unfold execute, bind, ret. unfold initial_state in H. rewrite H. reflexivity.
Qed.

Lemma execute_returns_inv p w res w' :
  execute p w = (Normal res, w') ->
  exists st,
    run_from (config p) (operators p) 0 (initial_state p) w = (Normal st, w') /\
    res = mkResult (currentValue st) (ctx_stopped (currentContext st))
            (ctx_error (currentContext st)) (ctx_metadata (currentContext st)).
Proof.
  unfold execute, bind, ret, initial_state.
  destruct (run_from (config p) (operators p) 0 _ w) as [[st|e] w1]; intros E;
    inversion E; subst. eauto.
Qed.

Lemma execute_throws_TypeError p w t w' :
  execute p w = (Throw t, w') -> t = conversion_TypeError.
Proof.
  unfold execute, bind, ret.
  destruct (run_from (config p) (operators p) 0 _ w) as [[st|e] w1] eqn:R; intros E;
    inversion E; subst. eapply run_from_throws_TypeError; exact R.
Qed.

(** [execute] returns when every operator that throws throws a value that
    String converts. *)
Lemma execute_total p w :
  Forall throws_convertible (operators p) ->
  exists res w', execute p w = (Normal res, w').
Proof.
  intros H.
  destruct (run_from_total (config p) (operators p) 0 (initial_state p) w H) as (st & w' & R).
  rewrite (execute_run _ _ _ _ R). eauto.
Qed.

(** Chaining keeps the configuration and the initial context. *)
Lemma pipe_config p ops : config (pipe p ops) = config p.
Proof. destruct p as [c o [d e m]]. reflexivity. Qed.

Lemma pipe_operators p ops : operators (pipe p ops) = (operators p ++ ops)%list.
Proof. reflexivity. Qed.

(** A pure operator throws nothing. *)
Lemma pure_operator_throws_convertible op f :
  pure_operator op f -> throws_convertible op.
Proof. intros H v c w e w' E. rewrite (H v c w) in E. discriminate. Qed.

(* ================================================================== *)
(** ** The operator factories *)
(* ================================================================== *)

(** [map] of a pure transform that returns bare values is a pure operator
    whose result carries the transformed value and does not stop. *)
Lemma map_pure_operator (t : Callback) (g : JsVal -> JsVal) :
  (forall x w, t x w = (Normal (g x), w)) ->
  (forall x, isPipeResult (g x) = false) ->
  pure_operator (map t) (fun x => pipeResult (g x) [("debugName", VStr "map")]).
Proof.
  intros Ht Hg x c w. unfold map, bind. rewrite Ht, Hg. reflexivity.
Qed.


Lemma pipeResult_map_value x :
  prop (pipeResult x [("debugName", VStr "map")]) "value" = x.
Proof. reflexivity. Qed.


(** The operator made by map(x => x + 1) never throws. *)
Lemma map_plus1_throws_convertible : throws_convertible (map plus1).
Proof.
  apply (pure_operator_throws_convertible (map plus1)
           (fun x => pipeResult (plus1_fn x) [("debugName", VStr "map")])).
  apply map_pure_operator; intros x; try reflexivity;
    destruct x; try reflexivity; apply isPipeResult_primitive; discriminate.
Qed.



(* ================================================================== *)
(** ** Properties of the specification *)
(* ================================================================== *)




(** C2 (P2, stop freezes value).  When the operator at any position of the
    chain returns a result whose stopped flag is set, the value that
    [execute] returns is the value the chain held just before that
    operator was called, and the result is stopped, whatever operators
    follow.  [execute] does return when the operators that follow throw
    only values that String converts. *)
Theorem P2_stop_freezes_value p pre op post w st1 w1 r w2 :
  operators p = (pre ++ op :: post)%list ->
  run_from (config p) pre 0 (initial_state p) w = (Normal st1, w1) ->
  op (currentValue st1) (Some (with_index (List.length pre) (currentContext st1))) w1
    = (Normal r, w2) ->
  nullish r = false ->
  truthy (prop r "stopped") = true ->
  (forall res w',
     execute p w = (Normal res, w') ->
     res_value res = currentValue st1 /\ res_stopped res = true) /\
  (Forall throws_convertible post ->
   exists res w',
     execute p w = (Normal res, w') /\
     res_value res = currentValue st1 /\
     res_stopped res = true).
Proof.
  intros Hops Hpre Hop Hr Hs.
  assert (G : forall st w',
    run_from (config p) (operators p) 0 (initial_state p) w = (Normal st, w') ->
    currentValue st = currentValue st1 /\ ctx_stopped (currentContext st) = true).
  { intros st w' R.
    rewrite Hops, (run_from_app _ _ _ _ _ _ _ _ Hpre) in R. simpl in R.
    unfold bind in R.
    destruct (iteration (config p) (List.length pre) op st1 w1) as [[s|e] w3] eqn:E;
      [|discriminate].
    destruct (iteration_stop_result _ _ _ _ _ _ _ _ _ Hop Hr Hs E) as [Hv Hst].
    destruct (run_from_frozen _ _ _ _ _ _ _ Hst R) as [Hv' Hst'].
    split; congruence. }
  split.
  - intros res w' E. destruct (execute_returns_inv p w res w' E) as (st & R & ->).
    simpl. exact (G st w' R).
  - intros Hpost.
    destruct (iteration_returns_after_return (config p) (List.length pre) op st1 w1 r w2 Hop)
      as (s & w3 & E).
    destruct (run_from_total (config p) post (S (List.length pre)) s w3 Hpost)
      as (st & w' & Rpost).
    assert (R : run_from (config p) (operators p) 0 (initial_state p) w = (Normal st, w')).
    { rewrite Hops, (run_from_app _ _ _ _ _ _ _ _ Hpre). simpl. unfold bind.
      rewrite E. exact Rpost. }
    rewrite (execute_run p w _ _ R). do 2 eexists. split; [reflexivity|]. simpl.
    exact (G st w' R).
Qed.

(** createPipe(5).pipe(map(x => x * 2), filter(x => x > 10), map(x => x + 1)):
    the filter stops at 10 and the later map does not change it. *)
Lemma P2_stop_freezes_value_witness :
  exists res w',
    execute (pipe (createPipe (VNum 5) None) [map times2; filter gt10; map plus1]) empty_world
    = (Normal res, w') /\
    res_value res = VNum 10 /\ res_stopped res = true.
Proof.
  refine (proj2 (P2_stop_freezes_value
            (pipe (createPipe (VNum 5) None) [map times2; filter gt10; map plus1])
            [map times2] (filter gt10) [map plus1] empty_world
            (mkLoop (VNum 10) (mkContext (VNum 5) false VUndefined (VObj []) 0 1))
            _ _ _ eq_refl eq_refl eq_refl eq_refl eq_refl) _).
  apply Forall_cons; [exact map_plus1_throws_convertible | apply Forall_nil].
Defined.
(** C3, counterexample.  In
    createPipe(5).pipe(filter(x => x > 10), tap(x => { seen.push(x) }))
    the filter leaves the context stopped, and the turn of the loop for the
    tap that follows still calls it: its effect has pushed 5. *)
Lemma skip_after_stop_counterexample :
  exists st1 w1 st2 w2,
    run_from (config stop_then_tap) [filter gt10] 0 (initial_state stop_then_tap) empty_world
      = (Normal st1, w1) /\
    ctx_stopped (currentContext st1) = true /\
    cells w1 = [] /\
    iteration (config stop_then_tap) 1 (tap push) st1 w1 = (Normal st2, w2) /\
    cells w2 = [VNum 5] /\
    exists res, execute stop_then_tap empty_world = (Normal res, w2).
Proof.
  do 4 eexists. repeat split; try reflexivity. eexists. reflexivity.
Qed.

(** C3, as amended.  Once the running context is stopped, the operator at
    any later position is still called, with the frozen value, and what it
    writes outside the chain is kept, whether it returns or throws.  When
    it returns, or throws a value that String converts, the turn of the
    loop completes and only what the operator returned is discarded: the
    value and the stopped flag are as before the call. *)
Theorem stopped_chain_still_calls cfg pre op post i st w st1 w1 :
  ctx_stopped (currentContext st) = true ->
  run_from cfg pre i st w = (Normal st1, w1) ->
  cells (snd (iteration cfg (i + List.length pre) op st1 w1)) =
    cells (snd (op (currentValue st)
                  (Some (with_index (i + List.length pre) (currentContext st1))) w1)) /\
  ((forall e w2,
      op (currentValue st) (Some (with_index (i + List.length pre) (currentContext st1))) w1
        = (Throw e, w2) -> convertible e = true) ->
   exists st2 w2,
     iteration cfg (i + List.length pre) op st1 w1 = (Normal st2, w2) /\
     run_from cfg (pre ++ op :: post) i st w
       = run_from cfg post (S (i + List.length pre)) st2 w2 /\
     cells w2 =
       cells (snd (op (currentValue st)
                     (Some (with_index (i + List.length pre) (currentContext st1))) w1)) /\
     currentValue st2 = currentValue st /\
     ctx_stopped (currentContext st2) = true).
Proof.
  intros Hs Hpre.
  destruct (run_from_frozen _ _ _ _ _ _ _ Hs Hpre) as [Hv1 Hs1].
  pose proof (iteration_cells cfg (i + List.length pre) op st1 w1) as Hc.
  rewrite Hv1 in Hc. split; [exact Hc|].
  intros Hconv. rewrite <- Hv1 in Hconv.
  destruct (iteration_total cfg (i + List.length pre) op st1 w1 Hconv) as (st2 & w2 & E).
  exists st2, w2. split; [exact E|].
  destruct (iteration_frozen _ _ _ _ _ _ _ Hs1 E) as [Hv2 Hs2].
  repeat split.
  - rewrite (run_from_app _ _ _ _ _ _ _ _ Hpre). simpl. unfold bind. rewrite E. reflexivity.
  - rewrite E in Hc. exact Hc.
  - congruence.
  - exact Hs2.
Qed.

(** After the stopping filter, two taps in a row are both called with 5. *)
Lemma stopped_chain_still_calls_witness :
  exists st2 w2,
    iteration (config stop_then_tap) 2 (tap push)
      (mkLoop (VNum 5) (mkContext (VNum 5) true VUndefined (VObj []) 1 1))
      (mkWorld [[VStr "result"; VObj [("value", VNum 5); ("debugName", VStr "tap")]]]
         [VNum 5])
      = (Normal st2, w2) /\
    run_from (config stop_then_tap) [tap push; tap push] 1
      (mkLoop (VNum 5) (mkContext (VNum 5) true VUndefined (VObj []) 0 1)) empty_world
      = run_from (config stop_then_tap) [] 3 st2 w2 /\
    cells w2 = [VNum 5; VNum 5] /\
    currentValue st2 = VNum 5 /\
    ctx_stopped (currentContext st2) = true.
Proof.
  refine (proj2 (stopped_chain_still_calls (config stop_then_tap)
           [tap push] (tap push) [] 1
           (mkLoop (VNum 5) (mkContext (VNum 5) true VUndefined (VObj []) 0 1))
           empty_world
           (mkLoop (VNum 5) (mkContext (VNum 5) true VUndefined (VObj []) 1 1))
           (mkWorld [[VStr "result"; VObj [("value", VNum 5); ("debugName", VStr "tap")]]]
              [VNum 5])
           eq_refl eq_refl) _).
  intros e w2 H. discriminate H.
Defined.

(** A throw of a value that String converts does not leave [execute]: the
    turn of the loop records the error, wrapped in an Error unless it is
    one, stops the context under the "stop" policy and leaves the flag
    alone under the others; when the operators that follow throw only such
    values too, [execute] returns normally, with an error set, and stopped
    under the "stop" policy. *)
Lemma convertible_throw_contained p pre op post w st1 w1 e w2 :
  operators p = (pre ++ op :: post)%list ->
  run_from (config p) pre 0 (initial_state p) w = (Normal st1, w1) ->
  op (currentValue st1) (Some (with_index (List.length pre) (currentContext st1))) w1
    = (Throw e, w2) ->
  convertible e = true ->
  Forall throws_convertible post ->
  iteration (config p) (List.length pre) op st1 w1 =
    (Normal (mkLoop (currentValue st1)
               (with_stopped
                  (ctx_stopped (currentContext st1) || is_stop (errorHandling (config p)))
                  (with_error (as_Error e)
                     (with_index (List.length pre) (currentContext st1))))), w2) /\
  instanceof_Error (as_Error e) = true /\
  (instanceof_Error e = false -> as_Error e = new_Error (to_string e)) /\
  exists res w',
    execute p w = (Normal res, w') /\
    truthy (res_error res) = true /\
    (is_stop (errorHandling (config p)) = true -> res_stopped res = true) /\
    (post = [] ->
     res_error res = as_Error e /\
     res_stopped res =
       ctx_stopped (currentContext st1) || is_stop (errorHandling (config p))).
Proof.
  intros Hops Hpre Hop Hconv Hpost.
  pose proof (iteration_throw (config p) (List.length pre) op st1 w1 e w2 Hop
                (convertible_String e Hconv)) as E.
  split; [exact E|]. split; [apply instanceof_as_Error|].
  split; [intros Hn; unfold as_Error; rewrite Hn; reflexivity|].
  match type of E with
  | _ = (Normal ?s, _) =>
      destruct (run_from_total (config p) post (S (List.length pre)) s w2 Hpost)
        as (st & w' & Rpost)
  end.
  assert (R : run_from (config p) (operators p) 0 (initial_state p) w = (Normal st, w')).
  { rewrite Hops, (run_from_app _ _ _ _ _ _ _ _ Hpre). simpl. unfold bind.
    rewrite E. exact Rpost. }
  rewrite (execute_run p w _ _ R). do 2 eexists. split; [reflexivity|]. simpl.
  repeat split.
  - eapply run_from_error_kept; [|exact Rpost]. simpl. apply truthy_as_Error.
  - intros Hp. eapply run_from_frozen; [|exact Rpost]. simpl. rewrite Hp. apply orb_true_r.
  - subst post. simpl in Rpost. unfold ret in Rpost. inversion Rpost; subst. reflexivity.
  - subst post. simpl in Rpost. unfold ret in Rpost. inversion Rpost; subst. reflexivity.
Qed.

(** C4 (P3, error containment), evaluated on operators that throw a value
    String cannot convert, such as { toString: null }.  When the operator
    at any position throws such a value, the catch block of the loop,
    which builds new Error(String(error)), throws a TypeError itself, and
    that TypeError leaves [execute]: no result is returned, no error field
    is set and no policy is applied. *)
Theorem P3_throw_escapes_execute p pre op post w st1 w1 e w2 :
  operators p = (pre ++ op :: post)%list ->
  run_from (config p) pre 0 (initial_state p) w = (Normal st1, w1) ->
  op (currentValue st1) (Some (with_index (List.length pre) (currentContext st1))) w1
    = (Throw e, w2) ->
  String_throws e = true ->
  execute p w = (Throw conversion_TypeError, w2).
Proof.
  intros Hops Hpre Hop Hs.
  pose proof (iteration_throw_escapes (config p) (List.length pre) op st1 w1 e w2 Hop Hs)
    as E.
  unfold execute, bind. fold (initial_state p).
  rewrite Hops, (run_from_app _ _ _ _ _ _ _ _ Hpre). simpl. unfold bind.
  rewrite E. reflexivity.
Qed.

(** createPipe(5).pipe(() => { throw { toString: null } }, map(x => x + 1)).execute()
    throws a TypeError. *)
Lemma P3_throw_escapes_execute_witness :
  execute (pipe (createPipe (VNum 5) None) [throw_no_toString; map plus1]) empty_world
  = (Throw conversion_TypeError, empty_world).
Proof.
  apply (P3_throw_escapes_execute
           (pipe (createPipe (VNum 5) None) [throw_no_toString; map plus1])
           [] throw_no_toString [map plus1] empty_world
           (mkLoop (VNum 5) (mkContext (VNum 5) false VUndefined (VObj []) 0 1))
           empty_world no_toString empty_world);
    reflexivity.
Defined.

(** Under the "stop" policy nothing that follows an operator that throws a
    value String converts, a catchError included, brings the chain back:
    [value()] is undefined. *)
Lemma value_undefined_after_throw p pre op post w st1 w1 e w2 :
  operators p = (pre ++ op :: post)%list ->
  run_from (config p) pre 0 (initial_state p) w = (Normal st1, w1) ->
  op (currentValue st1) (Some (with_index (List.length pre) (currentContext st1))) w1
    = (Throw e, w2) ->
  convertible e = true ->
  Forall throws_convertible post ->
  is_stop (errorHandling (config p)) = true ->
  exists w', value p w = (Normal VUndefined, w').
Proof.
  intros Hops Hpre Hop Hconv Hpost Hp.
  pose proof (iteration_throw (config p) (List.length pre) op st1 w1 e w2 Hop
                (convertible_String e Hconv)) as E.
  match type of E with
  | _ = (Normal ?s, _) =>
      destruct (run_from_total (config p) post (S (List.length pre)) s w2 Hpost)
        as (st & w' & Rpost)
  end.
  assert (R : run_from (config p) (operators p) 0 (initial_state p) w = (Normal st, w')).
  { rewrite Hops, (run_from_app _ _ _ _ _ _ _ _ Hpre). simpl. unfold bind.
    rewrite E. exact Rpost. }
  assert (He : truthy (ctx_error (currentContext st)) = true).
  { eapply run_from_error_kept; [|exact Rpost]. apply truthy_as_Error. }
  unfold value, bind. rewrite (execute_run p w _ _ R). cbn [res_error res_value].
  rewrite He, Hp. simpl.
  rewrite (read_prop_defined _ _ _ (truthy_not_nullish _ He)). eexists. reflexivity.
Qed.

(** C5 (P5, catch recovery), evaluated on
    createPipe(5).pipe(map(() => { throw new Error("boom") }), catchError(() => 42)).
    The handler is called, with the value alone, and [catchError] returns
    { value: 42, error: undefined, stopped: false }; the engine keeps the
    context stopped and the error set, restores the value 5, and [value()]
    returns undefined instead of 42. *)
Theorem catchError_does_not_recover :
  catchError (Some h42) (VNum 5)
    (Some (mkContext (VNum 5) true (new_Error "boom") (VObj []) 1 1)) empty_world
    = (Normal (VObj [("value", VNum 42); ("debugName", VStr "catchError");
                     ("error", VUndefined); ("stopped", VBool false)]),
       mkWorld [[VStr "context";
                 context_object (mkContext (VNum 5) true (new_Error "boom") (VObj []) 1 1);
                 VStr "boom"]] []) /\
  (exists w',
     execute (throw_then_catch None) empty_world
     = (Normal (mkResult (VNum 5) true (new_Error "boom") (VObj [])), w')) /\
  (exists w', value (throw_then_catch None) empty_world = (Normal VUndefined, w')) /\
  (exists w',
     execute (throw_then_catch (Some [KErrorHandling (Some Continue)])) empty_world
     = (Normal (mkResult (VNum 42) false (new_Error "boom") (VObj [])), w')).
Proof.
  split; [reflexivity|]. repeat split; eexists; reflexivity.
Qed.

(** The two consumers after an [execute] that returns: [value()] logs
    the message of the error and returns undefined when the result has an
    error and the policy is "stop", and returns the value of the result
    otherwise; [toPromise()] gives a promise rejected with the error
    exactly when the error is set, and fulfilled with the value otherwise. *)
Lemma consumers_after_execute p w res w1 :
  execute p w = (Normal res, w1) ->
  value p w =
    (if truthy (res_error res) && is_stop (errorHandling (config p))
     then (Normal VUndefined,
           mkWorld (console w1 ++ [[VStr "error"; prop (res_error res) "message"]])%list
             (cells w1))
     else (Normal (res_value res), w1)) /\
  toPromise p w =
    (Normal (if truthy (res_error res)
             then Rejected (res_error res)
             else Fulfilled (res_value res)), w1).
Proof.
  intros E. split.
  - unfold value, bind. rewrite E.
    destruct (truthy (res_error res)) eqn:Ht; simpl.
    + destruct (is_stop (errorHandling (config p))); [|reflexivity].
      rewrite (read_prop_defined _ _ _ (truthy_not_nullish _ Ht)). reflexivity.
    + reflexivity.
  - unfold toPromise, async, bind. rewrite E.
    destruct (truthy (res_error res)); reflexivity.
Qed.

(** [value()] completes normally on every pipe whose operators throw only
    values that String converts. *)
Lemma value_returns p w :
  Forall throws_convertible (operators p) ->
  exists x w', value p w = (Normal x, w').
Proof.
  intros H. destruct (execute_total p w H) as (res & w1 & E).
  destruct (consumers_after_execute p w res w1 E) as [-> _].
  destruct (truthy (res_error res) && is_stop (errorHandling (config p))); eauto.
Qed.

(** C6 (safe and throwing consumption), evaluated on pipes whose
    [execute] throws, as it does when an operator throws a value String
    cannot convert, such as { toString: null }.  [value()] has no handler
    of its own around execute(): it throws the same TypeError instead of
    logging and returning undefined.  [toPromise()] gives a promise
    rejected with that TypeError, which is the error of no result. *)
Theorem value_throws_with_execute p w t w' :
  execute p w = (Throw t, w') ->
  t = conversion_TypeError /\
  value p w = (Throw t, w') /\
  toPromise p w = (Normal (Rejected t), w').
Proof.
  intros E. split; [exact (execute_throws_TypeError p w t w' E)|].
  split.
  - unfold value, bind. rewrite E. reflexivity.
  - unfold toPromise, async, bind. rewrite E. reflexivity.
Qed.

(** createPipe(5).pipe(() => { throw { toString: null } }).value() throws a
    TypeError, under the default "stop" policy. *)
Lemma value_throws_with_execute_witness :
  value (pipe (createPipe (VNum 5) None) [throw_no_toString]) empty_world
    = (Throw conversion_TypeError, empty_world) /\
  toPromise (pipe (createPipe (VNum 5) None) [throw_no_toString]) empty_world
    = (Normal (Rejected conversion_TypeError), empty_world).
Proof.
  exact (proj2 (value_throws_with_execute
                  (pipe (createPipe (VNum 5) None) [throw_no_toString]) empty_world
                  conversion_TypeError empty_world eq_refl)).
Defined.

(** C7, counterexample.  createPipe(5).pipe(filter(x => x > 10)).value()
    is 5, not undefined. *)
Lemma filter_scenario_counterexample :
  fst (value filter_scenario empty_world) = Normal (VNum 5) /\
  fst (value filter_scenario empty_world) <> Normal VUndefined.
Proof. split; [reflexivity | discriminate]. Qed.

(** C7, as amended.  createPipe(5).pipe(filter(x => x > 10)).value() === 5,
    the value before the stop, no error being set, and the same chain's
    .execute().stopped === true. *)
Theorem filter_scenario_frozen_value w :
  (exists w', value filter_scenario w = (Normal (VNum 5), w')) /\
  (exists w', execute filter_scenario w
              = (Normal (mkResult (VNum 5) true VUndefined (VObj [])), w')).
Proof. split; eexists; reflexivity. Qed.

(* ------------------------------------------------------------------ *)
(** *** Retry *)

(** Under the "retry" policy a turn of the loop does what it does under
    "continue": nothing is attempted again and maxRetries is not read. *)
Lemma retry_policy_is_continue d m m' i op st w :
  iteration (mkConfig d (Some Retry) m) i op st w
  = iteration (mkConfig d (Some Continue) m') i op st w.
Proof. reflexivity. Qed.

(** The retry operator hands its input on, whatever the count. *)
Lemma retry_operator_passthrough times x c w :
  retry times x c w = (Normal (VObj [("value", x); ("debugName", VStr "retry")]), w).
Proof. reflexivity. Qed.

(** PipeManagerImpl.retry clears the flags of a stopped, failed context
    when the count is positive, and is the identity otherwise; it has no
    operator to call. *)
Lemma PipeManagerImpl_retry_clears times this :
  PipeOperators.retry times this =
  if PipeOperators.stopped this && truthy (PipeOperators.error this) && (0 <? times)%Z
  then PipeOperators.mkContext (PipeOperators.value this) false VUndefined
         (PipeOperators.metadata this)
  else this.
Proof.
  rewrite PipeOperators.retry_equation_1. unfold PipeOperators.retry_clause_1.
  destruct (PipeOperators.inspect _) as [[] E]; simpl in *; rewrite E.
  - rewrite PipeOperators.retry_equation_1. reflexivity.
  - reflexivity.
Qed.

(** C8 (retry), evaluated on an operator that throws on its first call and
    succeeds on the second.  Under the "retry" policy with maxRetries 3 it
    is called once and the result keeps the error and the value 5; followed
    by retry(3) under the default policy it is called once and the chain
    ends stopped with the error; and PipeManagerImpl's
    createPipe(5).map(f).retry(3) calls f once and clears the flags with the
    value still 5.  No run attempts the failing step a second time. *)
Theorem retry_does_not_rerun :
  execute (pipe (createPipe (VNum 5)
                   (Some [KErrorHandling (Some Retry); KMaxRetries (Some 3%Z)])) [flaky])
    empty_world
  = (Normal (mkResult (VNum 5) false (new_Error "flaky") (VObj [])),
     mkWorld [] [VStr "call"]) /\
  execute (pipe (createPipe (VNum 5) None) [flaky; retry (Some 3%Z)]) empty_world
  = (Normal (mkResult (VNum 5) true (new_Error "flaky") (VObj [])),
     mkWorld [[VStr "result"; VObj [("value", VNum 5); ("debugName", VStr "retry")]]]
       [VStr "call"]) /\
  (exists m,
     PipeOperators.map (PipeOperators.createPipe (VNum 5)) flaky_fn empty_world
     = (Normal m, mkWorld [] [VStr "call"]) /\
     PipeOperators.stopped m = true /\
     PipeOperators.retry 3 m
     = PipeOperators.mkContext (VNum 5) false VUndefined VUndefined).
Proof.
  split; [reflexivity|]. split; [reflexivity|].
  eexists. split; [reflexivity|]. split; [reflexivity|].
  rewrite PipeManagerImpl_retry_clears. reflexivity.
Qed.

(** The operator made by catchError(() => 42) never throws. *)
Lemma catchError_h42_throws_convertible : throws_convertible (catchError (Some h42)).
Proof.
  intros v c w e w' E. exfalso. revert E.
  unfold catchError, h42, bind, console_log, ret.
  destruct (negb _); [discriminate|].
  rewrite (isPipeResult_primitive (VNum 42)) by discriminate. discriminate.
Qed.

(** C9 (an error that is set is never cleared).  Within one run of
    [execute], if the error of the running context is set after some
    prefix of the operators, the error of the result that [execute]
    returns is set, whatever the remaining operators return.  [execute]
    does return when the remaining operators throw only values that String
    converts. *)
Theorem error_never_cleared p pre post w st1 w1 :
  operators p = (pre ++ post)%list ->
  run_from (config p) pre 0 (initial_state p) w = (Normal st1, w1) ->
  truthy (ctx_error (currentContext st1)) = true ->
  (forall res w',
     execute p w = (Normal res, w') ->
     truthy (res_error res) = true) /\
  (Forall throws_convertible post ->
   exists res w',
     execute p w = (Normal res, w') /\
     truthy (res_error res) = true).
Proof.
  intros Hops Hpre He.
  assert (G : forall st w',
    run_from (config p) (operators p) 0 (initial_state p) w = (Normal st, w') ->
    truthy (ctx_error (currentContext st)) = true).
  { intros st w' R. rewrite Hops, (run_from_app _ _ _ _ _ _ _ _ Hpre) in R.
    eapply run_from_error_kept; eauto. }
  split.
  - intros res w' E. destruct (execute_returns_inv p w res w' E) as (st & R & ->).
    simpl. exact (G st w' R).
  - intros Hpost.
    destruct (run_from_total (config p) post (0 + List.length pre) st1 w1 Hpost)
      as (st & w' & Rpost).
    assert (R : run_from (config p) (operators p) 0 (initial_state p) w = (Normal st, w')).
    { rewrite Hops, (run_from_app _ _ _ _ _ _ _ _ Hpre). exact Rpost. }
    rewrite (execute_run p w _ _ R). do 2 eexists. split; [reflexivity|]. simpl.
    exact (G st w' R).
Qed.

(** Under the "continue" policy the result of catchError, with error
    undefined and stopped false, leaves the error of the throwing map set. *)
Lemma error_never_cleared_witness :
  exists res w',
    execute (throw_then_catch (Some [KErrorHandling (Some Continue)])) empty_world
      = (Normal res, w') /\
    truthy (res_error res) = true.
Proof.
  refine (proj2 (error_never_cleared
           (throw_then_catch (Some [KErrorHandling (Some Continue)]))
           [map boom] [catchError (Some h42)] empty_world
           (mkLoop (VNum 5) (mkContext (VNum 5) false (new_Error "boom") (VObj []) 0 1))
           empty_world eq_refl eq_refl eq_refl) _).
  apply Forall_cons; [exact catchError_h42_throws_convertible | apply Forall_nil].
Defined.

(** C10 (filter and bare booleans).  When the predicate returns a bare
    boolean, true or false, the operator made by [filter] returns a result
    with stopped === true, carrying the input value. *)
Theorem filter_bare_boolean_stops predicate x c w b w' :
  predicate x w = (Normal (VBool b), w') ->
  exists r,
    filter predicate x c w = (Normal r, w') /\
    prop r "stopped" = VBool true /\
    prop r "value" = x.
Proof.
  intros H. unfold filter, bind. rewrite H.
  rewrite (isPipeResult_primitive (VBool b)) by discriminate.
  eexists. split; [reflexivity|]. split; reflexivity.
Qed.

(** filter(x => x > 3) applied to 5: the predicate holds and the result is
    stopped all the same. *)
Lemma filter_bare_boolean_stops_witness :
  exists r,
    filter gt3 (VNum 5) None empty_world = (Normal r, empty_world) /\
    prop r "stopped" = VBool true /\
    prop r "value" = VNum 5.
Proof.
  apply (filter_bare_boolean_stops gt3 (VNum 5) None empty_world true empty_world).
  reflexivity.
Defined.

(* ================================================================== *)
(** ** Further properties: objects *)
(* ================================================================== *)

Lemma lookup_set_field_eq k v fs : lookup k (set_field k v fs) = Some v.
Proof.
  induction fs as [|[k' v'] rest IH]; simpl.
  - rewrite String.eqb_refl. reflexivity.
  - destruct (k' =? k)%string eqn:E; simpl.
    + rewrite String.eqb_refl. reflexivity.
    + rewrite E. exact IH.
Qed.

Lemma lookup_set_field_neq k k' v fs :
  k <> k' -> lookup k' (set_field k v fs) = lookup k' fs.
Proof.
  intros Hne. induction fs as [|[k0 v0] rest IH]; simpl.
  - apply String.eqb_neq in Hne. rewrite Hne. reflexivity.
  - destruct (k0 =? k)%string eqn:E; simpl.
    + apply String.eqb_eq in E. subst k0.
      apply String.eqb_neq in Hne. rewrite Hne. reflexivity.
    + destruct (k0 =? k')%string; [reflexivity | exact IH].
Qed.

Lemma in_keys_set_field x k v fs :
  In x (keys (set_field k v fs)) <-> x = k \/ In x (keys fs).
Proof.
  induction fs as [|[k0 v0] rest IH]; simpl.
  - intuition.
  - destruct (k0 =? k)%string eqn:E; simpl.
    + apply String.eqb_eq in E. subst k0. intuition.
    + rewrite IH. intuition.
Qed.

Lemma unique_keys_set_field k v fs :
  NoDup (keys fs) -> NoDup (keys (set_field k v fs)).
Proof.
  induction fs as [|[k0 v0] rest IH]; simpl; intros H.
  - constructor; [intros []|constructor].
  - inversion H as [|? ? Hnot Hrest]; subst.
    destruct (k0 =? k)%string eqn:E; simpl.
    + apply String.eqb_eq in E. subst k0. constructor; assumption.
    + constructor; [|apply IH; assumption].
      intros Hin. apply in_keys_set_field in Hin as [-> | Hin].
      * rewrite String.eqb_refl in E. discriminate.
      * contradiction.
Qed.

Lemma unique_keys_assign es : forall into,
  NoDup (keys into) -> NoDup (keys (assign into es)).
Proof.
  induction es as [|[k v] rest IH]; intros into H; simpl.
  - exact H.
  - apply IH. apply unique_keys_set_field. exact H.
Qed.

Lemma lookup_not_in k fs : ~ In k (keys fs) -> lookup k fs = None.
Proof.
  induction fs as [|[k0 v0] rest IH]; simpl; intros H; [reflexivity|].
  destruct (k0 =? k)%string eqn:E.
  - apply String.eqb_eq in E. subst. exfalso. apply H. left. reflexivity.
  - apply IH. intros Hin. apply H. right. exact Hin.
Qed.

(** Object spread: a key of the entries takes the value given there, every
    other key keeps the value it had. *)
Lemma lookup_assign k es : forall into,
  NoDup (keys es) ->
  lookup k (assign into es) =
  match lookup k es with Some v => Some v | None => lookup k into end.
Proof.
  induction es as [|[k0 v0] rest IH]; intros into H; simpl; [reflexivity|].
  inversion H as [|? ? Hnot Hrest]; subst.
  unfold assign in *. simpl. rewrite (IH _ Hrest).
  destruct (k0 =? k)%string eqn:E.
  - apply String.eqb_eq in E. subst k0.
    rewrite (lookup_not_in _ _ Hnot). apply lookup_set_field_eq.
  - destruct (lookup k rest); [reflexivity|].
    apply lookup_set_field_neq. intros ->. rewrite String.eqb_refl in E. discriminate.
Qed.

Lemma lookup_assign_empty k fs :
  NoDup (keys fs) -> lookup k (assign [] fs) = lookup k fs.
Proof. intros H. rewrite (lookup_assign k fs [] H). destruct (lookup k fs); reflexivity. Qed.

(** Distinct keys of an object that is written out. *)
Ltac distinct_keys :=
  cbv [result_object unique_keys keys List.map fst]; simpl;
  repeat (apply NoDup_cons; [simpl; intuition congruence|]); apply NoDup_nil.

(* ================================================================== *)
(** ** Further properties: Pipe.execute *)
(* ================================================================== *)

(** [execute] when the operators are [pre] followed by one last operator. *)
Lemma execute_last p pre op w st1 w1 st' w' :
  operators p = (pre ++ [op])%list ->
  run_from (config p) pre 0 (initial_state p) w = (Normal st1, w1) ->
  iteration (config p) (List.length pre) op st1 w1 = (Normal st', w') ->
  execute p w = (Normal (result_of st'), w').
Proof.
  intros Hops Hpre E. apply execute_run.
  rewrite Hops, (run_from_app _ _ _ _ _ _ _ _ Hpre). simpl.
  unfold bind. rewrite E. reflexivity.
Qed.

(** X1.  An operator that returns a bare boolean, number or string instead
    of a result object does not fail: in a context that is not stopped the
    value of the chain becomes undefined, and the error, the metadata and
    the stopped flag stay as they were. *)
Theorem bare_return_gives_undefined p pre op w st1 w1 r w2 :
  operators p = (pre ++ [op])%list ->
  run_from (config p) pre 0 (initial_state p) w = (Normal st1, w1) ->
  op (currentValue st1) (Some (with_index (List.length pre) (currentContext st1))) w1
    = (Normal r, w2) ->
  ctx_stopped (currentContext st1) = false ->
  typeof r <> "object" ->
  r <> VUndefined ->
  exists w',
    execute p w =
    (Normal (mkResult VUndefined false (ctx_error (currentContext st1))
               (ctx_metadata (currentContext st1))), w').
Proof.
  intros Hops Hpre Hop Hs Hty Hu.
  destruct (iteration_returns_after_return (config p) (List.length pre) op st1 w1 r w2 Hop)
    as (st' & w' & E).
  exists w'. rewrite (execute_last p pre op w st1 w1 st' w' Hops Hpre E).
  f_equal. revert E. unfold_eff. rewrite Hop.
  destruct r; try (exfalso; apply Hty; reflexivity); try (exfalso; apply Hu; reflexivity);
    simpl; rewrite Hs; simpl;
    destruct (debug (config p)) as [[]|]; simpl;
    intros E; inversion E; subst; unfold result_of; simpl; rewrite ?Hs; reflexivity.
Qed.

(** createPipe(5).pipe(x => x * 2), the operator being a bare function as in
    the README. *)
Lemma bare_return_gives_undefined_witness :
  exists w',
    execute (pipe (createPipe (VNum 5) None) [fun x _ => times2 x]) empty_world =
    (Normal (mkResult VUndefined false VUndefined (VObj [])), w').
Proof.
  apply (bare_return_gives_undefined
           (pipe (createPipe (VNum 5) None) [fun x _ => times2 x])
           [] (fun x _ => times2 x) empty_world
           (mkLoop (VNum 5) (mkContext (VNum 5) false VUndefined (VObj []) 0 1))
           empty_world (VNum 10) empty_world);
    try reflexivity; discriminate.
Defined.

(** X2.  An operator that returns undefined or null is handled like one
    that throws: the TypeError of reading result.value is recorded as the
    error, the value stays the one before the call, and the context is
    stopped under the "stop" policy. *)
Theorem nullish_return_is_an_error p pre op w st1 w1 r w2 :
  operators p = (pre ++ [op])%list ->
  run_from (config p) pre 0 (initial_state p) w = (Normal st1, w1) ->
  op (currentValue st1) (Some (with_index (List.length pre) (currentContext st1))) w1
    = (Normal r, w2) ->
  nullish r = true ->
  exists w',
    execute p w =
    (Normal (mkResult (currentValue st1)
               (ctx_stopped (currentContext st1) || is_stop (errorHandling (config p)))
               (VError "TypeError"
                  ("Cannot read properties of " ++ to_string r ++ " (reading 'value')"))
               (ctx_metadata (currentContext st1))), w').
Proof.
  intros Hops Hpre Hop Hn.
  destruct (iteration_returns_after_return (config p) (List.length pre) op st1 w1 r w2 Hop)
    as (st' & w' & E).
  exists w'. rewrite (execute_last p pre op w st1 w1 st' w' Hops Hpre E).
  f_equal. revert E. unfold_eff. rewrite Hop. simpl. rewrite Hn. simpl.
  destruct (errorHandling (config p)) as [[]|]; simpl;
    intros E; inversion E; subst; unfold result_of; simpl;
    rewrite ?orb_true_r, ?orb_false_r; reflexivity.
Qed.

(** createPipe(5).pipe(() => undefined). *)
Lemma nullish_return_is_an_error_witness :
  exists w',
    execute (pipe (createPipe (VNum 5) None) [fun _ _ => ret VUndefined]) empty_world =
    (Normal (mkResult (VNum 5) true
               (VError "TypeError" "Cannot read properties of undefined (reading 'value')")
               (VObj [])), w').
Proof.
  apply (nullish_return_is_an_error
           (pipe (createPipe (VNum 5) None) [fun _ _ => ret VUndefined])
           [] (fun _ _ => ret VUndefined) empty_world
           (mkLoop (VNum 5) (mkContext (VNum 5) false VUndefined (VObj []) 0 1))
           empty_world VUndefined empty_world);
    reflexivity.
Defined.

(** X3.  An error that an operator returns, rather than throws, does not
    restore the value: in a context that is not stopped, under the "stop"
    policy, the result that [execute] returns is stopped on the value of
    that result, with an error set, whatever operators follow.  [execute]
    does return when the operators that follow throw only values that
    String converts. *)
Theorem returned_error_keeps_result_value p pre op post w st1 w1 r w2 :
  operators p = (pre ++ op :: post)%list ->
  run_from (config p) pre 0 (initial_state p) w = (Normal st1, w1) ->
  op (currentValue st1) (Some (with_index (List.length pre) (currentContext st1))) w1
    = (Normal r, w2) ->
  ctx_stopped (currentContext st1) = false ->
  nullish r = false ->
  truthy (prop r "stopped") = false ->
  truthy (prop r "error") = true ->
  is_stop (errorHandling (config p)) = true ->
  (forall res w',
     execute p w = (Normal res, w') ->
     res_value res = prop r "value" /\
     res_stopped res = true /\
     truthy (res_error res) = true) /\
  (Forall throws_convertible post ->
   exists res w',
     execute p w = (Normal res, w') /\
     res_value res = prop r "value" /\
     res_stopped res = true /\
     truthy (res_error res) = true).
Proof.
  intros Hops Hpre Hop Hs Hr Hst He Hp.
  assert (G : forall st w',
    run_from (config p) (operators p) 0 (initial_state p) w = (Normal st, w') ->
    currentValue st = prop r "value" /\
    ctx_stopped (currentContext st) = true /\
    truthy (ctx_error (currentContext st)) = true).
  { intros st w' R.
    rewrite Hops, (run_from_app _ _ _ _ _ _ _ _ Hpre) in R. simpl in R.
    unfold bind in R.
    destruct (iteration (config p) (List.length pre) op st1 w1) as [[s|e] w3] eqn:E;
      [|discriminate].
    destruct (iteration_pass _ _ _ _ _ _ _ _ _ Hop Hs Hr Hst E) as (Hv & Hs' & He').
    rewrite He, Hp in Hs'. rewrite He in He'.
    destruct (run_from_frozen _ _ _ _ _ _ _ Hs' R) as [Hv' Hs''].
    repeat split.
    - congruence.
    - exact Hs''.
    - eapply run_from_error_kept; [|exact R]. rewrite He'. exact He. }
  split.
  - intros res w' E. destruct (execute_returns_inv p w res w' E) as (st & R & ->).
    simpl. exact (G st w' R).
  - intros Hpost.
    destruct (iteration_returns_after_return (config p) (List.length pre) op st1 w1 r w2 Hop)
      as (s & w3 & E).
    destruct (run_from_total (config p) post (S (List.length pre)) s w3 Hpost)
      as (st & w' & Rpost).
    assert (R : run_from (config p) (operators p) 0 (initial_state p) w = (Normal st, w')).
    { rewrite Hops, (run_from_app _ _ _ _ _ _ _ _ Hpre). simpl. unfold bind.
      rewrite E. exact Rpost. }
    rewrite (execute_run p w _ _ R). do 2 eexists. split; [reflexivity|]. simpl.
    exact (G st w' R).
Qed.

(** createPipe(5).pipe(() => ({ value: 99, error: new Error("bad") }), map(x => x + 1)). *)
Lemma returned_error_keeps_result_value_witness :
  exists res w',
    execute (pipe (createPipe (VNum 5) None)
               [fun _ _ => ret (VObj [("value", VNum 99); ("error", new_Error "bad")]);
                map plus1]) empty_world
      = (Normal res, w') /\
    res_value res = VNum 99 /\
    res_stopped res = true /\
    truthy (res_error res) = true.
Proof.
  refine (proj2 (returned_error_keeps_result_value
           (pipe (createPipe (VNum 5) None)
              [fun _ _ => ret (VObj [("value", VNum 99); ("error", new_Error "bad")]);
               map plus1])
           [] (fun _ _ => ret (VObj [("value", VNum 99); ("error", new_Error "bad")]))
           [map plus1] empty_world
           (mkLoop (VNum 5) (mkContext (VNum 5) false VUndefined (VObj []) 0 1))
           empty_world (VObj [("value", VNum 99); ("error", new_Error "bad")]) empty_world
           eq_refl eq_refl eq_refl eq_refl eq_refl eq_refl eq_refl eq_refl) _).
  apply Forall_cons; [exact map_plus1_throws_convertible | apply Forall_nil].
Defined.

(** X4.  Metadata is merged key by key: when an operator returns metadata
    in a context that is not stopped, the metadata of the result of
    [execute] has, for every key, the value the operator gave it and
    otherwise the value the context had. *)
Theorem metadata_merge_last_wins p pre op w st1 w1 r w2 old md k :
  operators p = (pre ++ [op])%list ->
  run_from (config p) pre 0 (initial_state p) w = (Normal st1, w1) ->
  op (currentValue st1) (Some (with_index (List.length pre) (currentContext st1))) w1
    = (Normal r, w2) ->
  ctx_stopped (currentContext st1) = false ->
  nullish r = false ->
  truthy (prop r "stopped") = false ->
  ctx_metadata (currentContext st1) = VObj old ->
  prop r "metadata" = VObj md ->
  NoDup (keys old) ->
  NoDup (keys md) ->
  exists res w',
    execute p w = (Normal res, w') /\
    prop (res_metadata res) k =
      match lookup k md with
      | Some x => x
      | None => prop (VObj old) k
      end.
Proof.
  intros Hops Hpre Hop Hs Hr Hst Hold Hmd Nold Nmd.
  destruct (iteration_returns_after_return (config p) (List.length pre) op st1 w1 r w2 Hop)
    as (st' & w' & E).
  exists (result_of st'), w'.
  split; [exact (execute_last p pre op w st1 w1 st' w' Hops Hpre E)|].
  assert (Hm : ctx_metadata (currentContext st') = VObj (assign (assign [] old) md)).
  { revert E. unfold_eff. rewrite Hop. simpl. rewrite Hr. simpl. rewrite Hst, Hs, Hmd. simpl.
    destruct (truthy (prop r "error")); destruct (is_stop (errorHandling (config p)));
      destruct (debug (config p)) as [[]|]; simpl;
      intros E; inversion E; subst; simpl; rewrite Hold; reflexivity. }
  unfold result_of. simpl. rewrite Hm. simpl.
  rewrite (lookup_assign k md (assign [] old) Nmd).
  destruct (lookup k md); [reflexivity|].
  rewrite (lookup_assign_empty k old Nold). reflexivity.
Qed.

(** createPipe(5).pipe(v => metadata(v, { a: 1 }), v => metadata(v, { a: 2, b: 3 })):
    key a ends as 2. *)
Lemma metadata_merge_last_wins_witness :
  exists res w',
    execute (pipe (createPipe (VNum 5) None)
               [fun x _ => ret (metadata x (VObj [("a", VNum 1)]));
                fun x _ => ret (metadata x (VObj [("a", VNum 2); ("b", VNum 3)]))])
      empty_world
      = (Normal res, w') /\
    prop (res_metadata res) "a" = VNum 2.
Proof.
  eapply (metadata_merge_last_wins
           (pipe (createPipe (VNum 5) None)
              [fun x _ => ret (metadata x (VObj [("a", VNum 1)]));
               fun x _ => ret (metadata x (VObj [("a", VNum 2); ("b", VNum 3)]))])
           [fun x _ => ret (metadata x (VObj [("a", VNum 1)]))]
           (fun x _ => ret (metadata x (VObj [("a", VNum 2); ("b", VNum 3)])))
           empty_world
           (mkLoop (VNum 5) (mkContext (VNum 5) false VUndefined (VObj [("a", VNum 1)]) 0 1))
           _ _ _ [("a", VNum 1)] [("a", VNum 2); ("b", VNum 3)] "a");
    try reflexivity.
  - distinct_keys.
  - distinct_keys.
Defined.

(** X5.  In a stopped context a result that an operator returns changes
    nothing: the value, the error and the metadata of the result of
    [execute] are those the context had, even when the returned result
    carries a value, an error and metadata of its own. *)
Theorem stopped_context_ignores_result p pre op w st1 w1 r w2 :
  operators p = (pre ++ [op])%list ->
  run_from (config p) pre 0 (initial_state p) w = (Normal st1, w1) ->
  op (currentValue st1) (Some (with_index (List.length pre) (currentContext st1))) w1
    = (Normal r, w2) ->
  ctx_stopped (currentContext st1) = true ->
  nullish r = false ->
  exists w',
    execute p w =
    (Normal (mkResult (currentValue st1) true (ctx_error (currentContext st1))
               (ctx_metadata (currentContext st1))), w').
Proof.
  intros Hops Hpre Hop Hs Hr.
  destruct (iteration_returns_after_return (config p) (List.length pre) op st1 w1 r w2 Hop)
    as (st' & w' & E).
  exists w'. rewrite (execute_last p pre op w st1 w1 st' w' Hops Hpre E).
  f_equal. revert E. unfold_eff. rewrite Hop. simpl. rewrite Hr. simpl. rewrite Hs. simpl.
  destruct (debug (config p)) as [[]|]; simpl;
    intros E; inversion E; subst; reflexivity.
Qed.

(** After the stopping filter, v => ({ value: 1, error: new Error("late"), metadata: { a: 1 } })
    leaves value 5, no error and empty metadata. *)
Lemma stopped_context_ignores_result_witness :
  exists w',
    execute (pipe (createPipe (VNum 5) None)
               [filter gt10;
                fun _ _ => ret (VObj [("value", VNum 1); ("error", new_Error "late");
                                      ("metadata", VObj [("a", VNum 1)])])])
      empty_world
    = (Normal (mkResult (VNum 5) true VUndefined (VObj [])), w').
Proof.
  eapply (stopped_context_ignores_result
            (pipe (createPipe (VNum 5) None)
               [filter gt10;
                fun _ _ => ret (VObj [("value", VNum 1); ("error", new_Error "late");
                                      ("metadata", VObj [("a", VNum 1)])])])
            [filter gt10] _ empty_world
            (mkLoop (VNum 5) (mkContext (VNum 5) true VUndefined (VObj []) 0 1)));
    reflexivity.
Defined.





(* ================================================================== *)
(** ** Further properties: the operator factories *)
(* ================================================================== *)

Lemma isPipeResult_fields res :
  isPipeResult res = true ->
  exists fs x, res = VObj fs /\ lookup "value" fs = Some x.
Proof.
  destruct res as [| | b | n | s | name message | fs]; intros H;
    try discriminate H;
    try (unfold isPipeResult in H; simpl in H; rewrite ?andb_false_r in H; discriminate H).
  unfold isPipeResult in H. simpl in H.
  destruct (lookup "value" fs) as [x|] eqn:E; [|discriminate H]. eauto.
Qed.



(** X8.  The operator made by [filter] lets the value through exactly when
    the predicate returns an object that has a value key with a truthy
    value; on every other return it gives a stopped result.  Either way
    the result carries the input value. *)
Theorem filter_passes_iff predicate x c w res w' :
  predicate x w = (Normal res, w') ->
  exists r,
    filter predicate x c w = (Normal r, w') /\
    prop r "value" = x /\
    truthy (prop r "stopped") = negb (isPipeResult res && truthy (prop res "value")).
Proof.
  intros Hp. unfold filter, bind. rewrite Hp.
  destruct (isPipeResult res) eqn:Hres.
  - destruct (isPipeResult_fields res Hres) as (fs & v & -> & Hv).
    simpl. rewrite Hv. destruct (truthy v); eexists; repeat split.
  - eexists. repeat split.
Qed.

(** filter(x => ({ value: x > 3 })) applied to 5 lets it through. *)
Lemma filter_passes_iff_witness :
  exists r,
    filter (fun x => b <- gt3 x ;; ret (VObj [("value", b)])) (VNum 5) None empty_world
      = (Normal r, empty_world) /\
    prop r "value" = VNum 5 /\
    truthy (prop r "stopped") = false.
Proof.
  apply (filter_passes_iff (fun x => b <- gt3 x ;; ret (VObj [("value", b)]))
           (VNum 5) None empty_world (VObj [("value", VBool true)]) empty_world).
  reflexivity.
Defined.



(** [execute] of createPipe(v, cfg).pipe(...ops) in terms of its loop. *)
Lemma execute_createPipe v cfg ops w st w' :
  run_from (config (createPipe v cfg)) ops 0
    (mkLoop v (mkContext v false VUndefined (VObj []) 0 1)) w = (Normal st, w') ->
  execute (pipe (createPipe v cfg) ops) w = (Normal (result_of st), w').
Proof.
  intros H. apply execute_run. rewrite pipe_config. exact H.
Qed.

(** X10.  When the policy is not "stop", the handler of [catchError] does
    give the chain its value after a throw: for an operator that throws a
    value that String converts, an Error among them, and a pure handler
    that returns a bare value [y] for [v],
    createPipe(v, cfg).pipe(op, catchError(h)).execute() ends on the value
    [y], not stopped, with the thrown error still set, and value()
    returns [y]. *)
Theorem catchError_gives_value_when_not_stop v cfg op h e y w w1 :
  is_stop (errorHandling (config (createPipe v cfg))) = false ->
  op v (Some (mkContext v false VUndefined (VObj []) 0 1)) w = (Throw e, w1) ->
  convertible e = true ->
  (forall w0, h v w0 = (Normal y, w0)) ->
  isPipeResult y = false ->
  exists w',
    execute (pipe (createPipe v cfg) [op; catchError (Some h)]) w
      = (Normal (mkResult y false (as_Error e) (VObj [])), w') /\
    value (pipe (createPipe v cfg) [op; catchError (Some h)]) w = (Normal y, w').
Proof.
  intros Hp Hop Hconv Hh Hy.
  set (C := config (createPipe v cfg)) in *.
  assert (R : exists w',
    run_from C [op; catchError (Some h)] 0
      (mkLoop v (mkContext v false VUndefined (VObj []) 0 1)) w
    = (Normal (mkLoop y (mkContext v false (as_Error e) (VObj []) 1 1)), w')).
  { simpl. unfold bind at 1.
    rewrite (iteration_throw C 0 op
               (mkLoop v (mkContext v false VUndefined (VObj []) 0 1)) w e w1 Hop
               (convertible_String e Hconv)).
    simpl. rewrite Hp. simpl.
    unfold bind at 1. unfold iteration, try_catch, bind, catchError. simpl.
    rewrite truthy_as_Error. simpl.
    assert (Hn : nullish (as_Error e) = false) by (destruct e; reflexivity).
    rewrite Hn. unfold console_log at 1, bind. simpl.
    rewrite Hh, Hy.
    unfold ret, console_log, when, debugLog. simpl.
    destruct (debug C) as [[]|]; simpl; eauto. }
  destruct R as (w' & R). exists w'.
  pose proof (execute_createPipe v cfg _ w _ w' R) as E.
  split; [exact E|].
  unfold value, bind. rewrite E.
  cbn [result_of res_error res_value currentValue currentContext ctx_error].
  rewrite truthy_as_Error, pipe_config. fold C. rewrite Hp. reflexivity.
Qed.

(** createPipe(5, { errorHandling: "continue" })
      .pipe(map(() => { throw new Error("boom") }), catchError(() => 42)).value() is 42. *)
Lemma catchError_gives_value_when_not_stop_witness :
  exists w',
    execute (throw_then_catch (Some [KErrorHandling (Some Continue)])) empty_world
      = (Normal (mkResult (VNum 42) false (new_Error "boom") (VObj [])), w') /\
    value (throw_then_catch (Some [KErrorHandling (Some Continue)])) empty_world
      = (Normal (VNum 42), w').
Proof.
  apply (catchError_gives_value_when_not_stop (VNum 5)
           (Some [KErrorHandling (Some Continue)]) (map boom) h42 (new_Error "boom")
           (VNum 42) empty_world empty_world);
    reflexivity.
Defined.

(** X11.  createPipe(v, cfg).pipe(throwError(message)): the chain keeps the
    value [v] and carries new Error(message); it is stopped exactly under
    the "stop" policy, and toPromise() is rejected with that error. *)
Theorem throwError_sets_error v cfg message w :
  exists w',
    execute (pipe (createPipe v cfg) [throwError message]) w =
      (Normal (mkResult v (is_stop (errorHandling (config (createPipe v cfg))))
                 (new_Error message) (VObj [])), w') /\
    toPromise (pipe (createPipe v cfg) [throwError message]) w =
      (Normal (Rejected (new_Error message)), w').
Proof.
  set (C := config (createPipe v cfg)).
  assert (R : exists w',
    run_from C [throwError message] 0
      (mkLoop v (mkContext v false VUndefined (VObj []) 0 1)) w
    = (Normal (mkLoop v (mkContext v (is_stop (errorHandling C)) (new_Error message)
                           (VObj []) 0 1)), w')).
  { simpl. unfold bind, iteration, try_catch, bind, throwError, ret, read_prop,
      console_log, when, debugLog. simpl.
    destruct (errorHandling C) as [[]|]; destruct (debug C) as [[]|]; simpl; eauto. }
  destruct R as (w' & R). exists w'.
  pose proof (execute_createPipe v cfg _ w _ w' R) as E. fold C in E.
  split; [exact E|].
  unfold toPromise, async, bind. rewrite E. reflexivity.
Qed.

(* ================================================================== *)
(** ** Further properties: take and skip *)
(* ================================================================== *)

Lemma replace_nth_length c v l : List.length (replace_nth c v l) = List.length l.
Proof.
  revert c. induction l as [|x rest IH]; intros [|c]; simpl; auto.
Qed.

Lemma nth_replace_nth c v l d :
  c < List.length l -> nth c (replace_nth c v l) d = v.
Proof.
  revert c. induction l as [|x rest IH]; intros [|c]; simpl; intros H; try lia; auto.
  apply IH. lia.
Qed.

(** One call of the operator of take(count) when its counter holds [k]. *)
Lemma take_call count w0 op w1 x c w k :
  take count w0 = (Normal op, w1) ->
  counter_at (List.length (cells w0)) k w ->
  exists r w',
    op x c w = (Normal r, w') /\
    counter_at (List.length (cells w0)) (k + 1) w' /\
    console w' = console w /\
    prop r "value" = x /\
    prop r "stopped" = (if (k + 1 <=? count)%Z then VUndefined else VBool true) /\
    prop r "error" = VUndefined /\
    prop r "metadata" = VUndefined /\
    nullish r = false.
Proof.
  intros Ht [Hlen Hk]. unfold take, bind, new_cell, ret in Ht. inversion Ht; subst; clear Ht.
  unfold bind, get_cell, set_cell. simpl. rewrite Hk. simpl.
  destruct (k + 1 <=? count)%Z; do 2 eexists; (split; [reflexivity|]);
    (split; [split; simpl; [rewrite replace_nth_length; exact Hlen
                           | apply nth_replace_nth; exact Hlen]|]);
    repeat split.
Qed.

Lemma skip_call count w0 op w1 x c w k :
  skip count w0 = (Normal op, w1) ->
  counter_at (List.length (cells w0)) k w ->
  exists r w',
    op x c w = (Normal r, w') /\
    counter_at (List.length (cells w0)) (k + 1) w' /\
    prop r "value" = x /\
    prop r "stopped" = (if (count <? k + 1)%Z then VUndefined else VBool true).
Proof.
  intros Ht [Hlen Hk]. unfold skip, bind, new_cell, ret in Ht. inversion Ht; subst; clear Ht.
  unfold bind, get_cell, set_cell. simpl. rewrite Hk. simpl.
  destruct (count <? k + 1)%Z; do 2 eexists; (split; [reflexivity|]);
    (split; [split; simpl; [rewrite replace_nth_length; exact Hlen
                           | apply nth_replace_nth; exact Hlen]|]);
    repeat split.
Qed.

Lemma counter_after_take count w0 op w1 :
  take count w0 = (Normal op, w1) -> counter_at (List.length (cells w0)) 0 w1.
Proof.
  intros Ht. unfold take, bind, new_cell, ret in Ht. inversion Ht; subst; clear Ht.
  split; simpl.
  - rewrite length_app. simpl. lia.
  - rewrite app_nth2 by lia. rewrite Nat.sub_diag. reflexivity.
Qed.

Lemma counter_after_skip count w0 op w1 :
  skip count w0 = (Normal op, w1) -> counter_at (List.length (cells w0)) 0 w1.
Proof.
  intros Ht. unfold skip, bind, new_cell, ret in Ht. inversion Ht; subst; clear Ht.
  split; simpl.
  - rewrite length_app. simpl. lia.
  - rewrite app_nth2 by lia. rewrite Nat.sub_diag. reflexivity.
Qed.

Lemma take_counter_after_calls count w0 op w1 :
  take count w0 = (Normal op, w1) ->
  forall vs w k,
    counter_at (List.length (cells w0)) k w ->
    counter_at (List.length (cells w0)) (k + Z.of_nat (List.length vs)) (after_calls op vs w).
Proof.
  intros Ht. induction vs as [|v rest IH]; intros w k Hc; simpl.
  - rewrite Z.add_0_r. exact Hc.
  - destruct (take_call count w0 op w1 v None w k Ht Hc) as (r & w' & E & Hc' & _).
    rewrite E. simpl.
    replace (k + Z.pos (Pos.of_succ_nat (List.length rest)))%Z
      with ((k + 1) + Z.of_nat (List.length rest))%Z by lia.
    apply IH. exact Hc'.
Qed.

Lemma skip_counter_after_calls count w0 op w1 :
  skip count w0 = (Normal op, w1) ->
  forall vs w k,
    counter_at (List.length (cells w0)) k w ->
    counter_at (List.length (cells w0)) (k + Z.of_nat (List.length vs)) (after_calls op vs w).
Proof.
  intros Ht. induction vs as [|v rest IH]; intros w k Hc; simpl.
  - rewrite Z.add_0_r. exact Hc.
  - destruct (skip_call count w0 op w1 v None w k Ht Hc) as (r & w' & E & Hc' & _).
    rewrite E. simpl.
    replace (k + Z.pos (Pos.of_succ_nat (List.length rest)))%Z
      with ((k + 1) + Z.of_nat (List.length rest))%Z by lia.
    apply IH. exact Hc'.
Qed.

(** X12.  The operator made by take(count) counts its calls: after it has
    been called on [n] values, whichever they were, its next call returns a
    result carrying the input value that is stopped exactly when
    [n + 1 > count].  The first [count] calls pass, every later one
    stops. *)
Theorem take_passes_first_calls count w0 op w1 vs x c :
  take count w0 = (Normal op, w1) ->
  exists r w',
    op x c (after_calls op vs w1) = (Normal r, w') /\
    prop r "value" = x /\
    truthy (prop r "stopped") = negb (Z.of_nat (List.length vs) + 1 <=? count)%Z.
Proof.
  intros Ht.
  pose proof (take_counter_after_calls count w0 op w1 Ht vs w1 0
                (counter_after_take count w0 op w1 Ht)) as Hc.
  destruct (take_call count w0 op w1 x c _ _ Ht Hc) as (r & w' & E & _ & _ & Hv & Hs & _).
  exists r, w'. split; [exact E|]. split; [exact Hv|].
  rewrite Hs. simpl. destruct (Z.of_nat (List.length vs) + 1 <=? count)%Z; reflexivity.
Qed.

(** take(2): the third call stops. *)
Lemma take_passes_first_calls_witness :
  exists op w1 r w',
    take 2 empty_world = (Normal op, w1) /\
    op (VNum 7) None (after_calls op [VNum 1; VNum 2] w1) = (Normal r, w') /\
    prop r "value" = VNum 7 /\
    truthy (prop r "stopped") = true.
Proof.
  destruct (take 2 empty_world) as [[op|e] w1] eqn:Ht; [|discriminate Ht].
  destruct (take_passes_first_calls 2 empty_world op w1 [VNum 1; VNum 2] (VNum 7) None Ht)
    as (r & w' & E & Hv & Hs).
  exists op, w1, r, w'. repeat split; assumption.
Defined.

(** X13.  The operator made by skip(count) stops its first [count] calls
    and passes every later one: after [n] calls its next call returns a
    result carrying the input value that is stopped exactly when
    [n + 1 <= count]. *)
Theorem skip_stops_first_calls count w0 op w1 vs x c :
  skip count w0 = (Normal op, w1) ->
  exists r w',
    op x c (after_calls op vs w1) = (Normal r, w') /\
    prop r "value" = x /\
    truthy (prop r "stopped") = (Z.of_nat (List.length vs) + 1 <=? count)%Z.
Proof.
  intros Ht.
  pose proof (skip_counter_after_calls count w0 op w1 Ht vs w1 0
                (counter_after_skip count w0 op w1 Ht)) as Hc.
  destruct (skip_call count w0 op w1 x c _ _ Ht Hc) as (r & w' & E & _ & Hv & Hs).
  exists r, w'. split; [exact E|]. split; [exact Hv|].
  rewrite Hs. simpl.
  destruct (count <? Z.of_nat (List.length vs) + 1)%Z eqn:E1;
    destruct (Z.of_nat (List.length vs) + 1 <=? count)%Z eqn:E2; try reflexivity;
    (apply Z.ltb_lt in E1 || apply Z.ltb_ge in E1);
    (apply Z.leb_le in E2 || apply Z.leb_gt in E2); lia.
Qed.

(** skip(1): the first call stops. *)
Lemma skip_stops_first_calls_witness :
  exists op w1 r w',
    skip 1 empty_world = (Normal op, w1) /\
    op (VNum 7) None (after_calls op [] w1) = (Normal r, w') /\
    prop r "value" = VNum 7 /\
    truthy (prop r "stopped") = true.
Proof.
  destruct (skip 1 empty_world) as [[op|e] w1] eqn:Ht; [|discriminate Ht].
  destruct (skip_stops_first_calls 1 empty_world op w1 [] (VNum 7) None Ht)
    as (r & w' & E & Hv & Hs).
  exists op, w1, r, w'. repeat split; assumption.
Defined.

(** A turn of the loop for a result that carries no error and no
    metadata, in a context that is not stopped. *)
Lemma iteration_flags_only cfg i op st w r w1 :
  op (currentValue st) (Some (with_index i (currentContext st))) w = (Normal r, w1) ->
  ctx_stopped (currentContext st) = false ->
  nullish r = false ->
  truthy (prop r "error") = false ->
  truthy (prop r "metadata") = false ->
  exists w',
    iteration cfg i op st w =
      (Normal (mkLoop (if truthy (prop r "stopped") then currentValue st else prop r "value")
                 (with_stopped (truthy (prop r "stopped"))
                    (with_index i (currentContext st)))), w') /\
    cells w' = cells w1.
Proof.
  intros Hop Hs Hr He Hm. unfold_eff. rewrite Hop. simpl. rewrite Hr. simpl.
  rewrite Hs. simpl.
  destruct (truthy (prop r "stopped")); simpl; rewrite ?He, ?Hm; simpl;
    destruct (debug cfg) as [[]|]; simpl; eexists;
    (split; [unfold with_stopped, with_index; simpl; rewrite ?Hs; reflexivity
            | reflexivity]).
Qed.

(** One run of createPipe(v, cfg).pipe(take(count)) when the counter of the
    take holds [k]. *)
Lemma execute_take_once v cfg count w0 op w1 w k :
  take count w0 = (Normal op, w1) ->
  counter_at (List.length (cells w0)) k w ->
  exists w',
    execute (pipe (createPipe v cfg) [op]) w =
      (Normal (mkResult v (negb (k + 1 <=? count)%Z) VUndefined (VObj [])), w') /\
    counter_at (List.length (cells w0)) (k + 1) w'.
Proof.
  intros Ht Hc.
  destruct (take_call count w0 op w1 v
              (Some (with_index 0 (mkContext v false VUndefined (VObj []) 0 1))) w k Ht Hc)
    as (r & w2 & E & Hc2 & _ & Hv & Hs & He & Hm & Hn).
  destruct (iteration_flags_only (config (createPipe v cfg)) 0 op
              (mkLoop v (mkContext v false VUndefined (VObj []) 0 1)) w r w2 E eq_refl Hn)
    as (w' & I & Hcells).
  { rewrite He. reflexivity. }
  { rewrite Hm. reflexivity. }
  exists w'. split.
  - match type of I with _ = (Normal ?s, _) =>
      assert (R : run_from (config (createPipe v cfg)) [op] 0
                    (mkLoop v (mkContext v false VUndefined (VObj []) 0 1)) w
                  = (Normal s, w'))
        by (cbn [run_from]; unfold bind; rewrite I; reflexivity)
    end.
    rewrite (execute_createPipe v cfg [op] w _ w' R).
    unfold result_of. simpl. rewrite Hs, Hv.
    destruct (k + 1 <=? count)%Z; reflexivity.
  - destruct Hc2 as [Hl Hk]. split; rewrite Hcells; assumption.
Qed.

(** X14.  A pipe built on take(count) is not the same pipe twice: of the
    runs of execute() on createPipe(v, cfg).pipe(take(count)), the first
    [count] return the value not stopped and every later run returns it
    stopped, the counter living in the operator and not in the run. *)
Theorem take_counts_across_executions v cfg count w0 op w1 n :
  take count w0 = (Normal op, w1) ->
  fst (execute (pipe (createPipe v cfg) [op])
         (after_executions (pipe (createPipe v cfg) [op]) n w1))
  = Normal (mkResult v (negb (Z.of_nat n + 1 <=? count)%Z) VUndefined (VObj [])).
Proof.
  intros Ht.
  assert (G : forall n w k,
    counter_at (List.length (cells w0)) k w ->
    fst (execute (pipe (createPipe v cfg) [op])
           (after_executions (pipe (createPipe v cfg) [op]) n w))
    = Normal (mkResult v (negb (k + Z.of_nat n + 1 <=? count)%Z) VUndefined (VObj []))).
  { clear n. induction n as [|n IH]; intros w k Hc.
    - destruct (execute_take_once v cfg count w0 op w1 w k Ht Hc) as (w' & E & _).
      simpl. rewrite E. simpl. rewrite Z.add_0_r. reflexivity.
    - destruct (execute_take_once v cfg count w0 op w1 w k Ht Hc) as (w' & E & Hc').
      cbn [after_executions]. rewrite E. cbn [snd].
      rewrite (IH w' (k + 1)%Z Hc').
      replace (k + 1 + Z.of_nat n + 1)%Z with (k + Z.of_nat (S n) + 1)%Z by lia.
      reflexivity. }
  apply (G n w1 0%Z). exact (counter_after_take count w0 op w1 Ht).
Qed.

(** createPipe(5).pipe(take(1)): the second run of execute() is stopped. *)
Lemma take_counts_across_executions_witness :
  exists op w1,
    take 1 empty_world = (Normal op, w1) /\
    fst (execute (pipe (createPipe (VNum 5) None) [op])
           (after_executions (pipe (createPipe (VNum 5) None) [op]) 1 w1))
    = Normal (mkResult (VNum 5) true VUndefined (VObj [])).
Proof.
  destruct (take 1 empty_world) as [[op|e] w1] eqn:Ht; [|discriminate Ht].
  exists op, w1. split; [reflexivity|].
  exact (take_counts_across_executions (VNum 5) None 1 empty_world op w1 1 Ht).
Defined.

(* ================================================================== *)
(** ** Further properties: compose *)
(* ================================================================== *)

(** The accumulator that [compose] builds from a result has the fields of
    the result, the debugName apart. *)
Lemma compose_acc_fields fs d k :
  NoDup (keys fs) ->
  k <> "debugName" ->
  prop (pipeResult (prop (VObj fs) "value")
          (set_field "debugName" d (spread [] (VObj fs)))) k
  = prop (VObj fs) k.
Proof.
  intros Hu Hk. unfold pipeResult, spread. cbn [prop own_fields].
  rewrite lookup_assign
    by (apply unique_keys_set_field, unique_keys_assign; constructor).
  rewrite (lookup_set_field_neq "debugName" k) by (intros E; apply Hk; symmetry; exact E).
  rewrite (lookup_assign_empty k fs Hu).
  destruct (lookup k fs) as [x|] eqn:E; [reflexivity|].
  cbn [lookup]. destruct ("value" =? k)%string eqn:Ek; [|reflexivity].
  apply String.eqb_eq in Ek. subst k. rewrite E. reflexivity.
Qed.

(** Once the flag is set, the operators that remain are not called. *)
Lemma compose_reduce_marker ops : forall w,
  compose_reduce ops compose_stop_marker true w = (Normal compose_stop_marker, w).
Proof.
  induction ops as [|op rest IH]; intros w; [reflexivity|]. simpl. apply IH.
Qed.

(** The reduce over pure operators whose results are objects that do not
    stop. *)
Lemma compose_reduce_pure : forall ops fs,
  Forall2 pure_operator ops fs ->
  (forall f y, In f fs ->
     result_object (f y) /\ truthy (prop (f y) "stopped") = false) ->
  forall acc w,
    nullish acc = false ->
    exists acc',
      (forall rest, compose_reduce (ops ++ rest) acc false w
                    = compose_reduce rest acc' false w) /\
      nullish acc' = false /\
      prop acc' "value" = chain_value fs (prop acc "value") /\
      (truthy (prop acc "stopped") = false -> truthy (prop acc' "stopped") = false).
Proof.
  intros ops fs HF. induction HF as [|op f ops fs Hop HF IH]; intros Hres acc w Hacc.
  - exists acc. repeat split; auto.
  - destruct (Hres f (prop acc "value") (or_introl eq_refl)) as [Hobj Hst].
    destruct (f (prop acc "value")) as [| | | | | |rf] eqn:Ef; try contradiction.
    simpl in Hobj.
    set (acc1 := pipeResult (prop (VObj rf) "value")
                   (set_field "debugName"
                      (VStr (to_string (prop acc "debugName") ++ " / "
                               ++ to_string (prop (VObj rf) "debugName")))
                      (spread [] (VObj rf)))).
    destruct (IH (fun g y Hg => Hres g y (or_intror Hg)) acc1 w eq_refl)
      as (acc' & Hrun & Hn & Hv & Hs).
    exists acc'. split; [|split; [exact Hn|split]].
    + intros rest. simpl. unfold bind.
      rewrite (read_prop_defined acc "value" w Hacc).
      rewrite (Hop (prop acc "value") None w), Ef.
      rewrite !read_prop_defined by (reflexivity || exact Hacc).
      rewrite Hst. apply Hrun.
    + rewrite Hv. unfold acc1. rewrite compose_acc_fields by (auto; discriminate).
      unfold chain_value. simpl. rewrite Ef. reflexivity.
    + intros _. apply Hs. unfold acc1.
      rewrite compose_acc_fields by (auto; discriminate). exact Hst.
Qed.

(** X15.  compose(f1, ..., fn) of pure operators whose results are objects
    that do not stop returns a result whose value is fn(...f2(f1(x))), not
    stopped; the operators are called with the value alone, and the world
    is left as it is. *)
Theorem compose_chains_values ops fs x c w :
  Forall2 pure_operator ops fs ->
  (forall f y, In f fs ->
     result_object (f y) /\ truthy (prop (f y) "stopped") = false) ->
  exists r,
    compose ops x c w = (Normal r, w) /\
    prop r "value" = chain_value fs x /\
    truthy (prop r "stopped") = false.
Proof.
  intros HF Hres.
  destruct (compose_reduce_pure ops fs HF Hres
              (pipeResult x [("debugName", VStr "compose")]) w eq_refl)
    as (acc' & Hrun & _ & Hv & Hs).
  exists acc'. unfold compose.
  specialize (Hrun []). rewrite app_nil_r in Hrun. rewrite Hrun.
  split; [reflexivity|]. split; [exact Hv|]. apply Hs. reflexivity.
Qed.

(** compose(map(x => x * 2), map(x => x + 1)) applied to 5 gives 11. *)
Lemma compose_chains_values_witness :
  exists r,
    compose [map times2; map plus1] (VNum 5) None empty_world = (Normal r, empty_world) /\
    prop r "value" = VNum 11 /\
    truthy (prop r "stopped") = false.
Proof.
  apply (compose_chains_values [map times2; map plus1]
           [fun x => pipeResult (times2_fn x) [("debugName", VStr "map")];
            fun x => pipeResult (plus1_fn x) [("debugName", VStr "map")]]
           (VNum 5) None empty_world).
  - apply Forall2_cons; [|apply Forall2_cons; [|apply Forall2_nil]];
      apply map_pure_operator; intros x; try reflexivity;
      destruct x; try reflexivity; apply isPipeResult_primitive; discriminate.
  - intros f y [<- | [<- | []]]; (split; [distinct_keys | reflexivity]).
Defined.

(** X16.  Inside compose a stop is not handed on.  When, after pure
    operators that do not stop, an operator returns a stopped result and at
    least one more operator follows, the operators that follow are not
    called and the composed operator returns
    { value: undefined, debugName: "compose / stop" }: the value is lost
    and the result is not marked stopped. *)
Theorem compose_loses_the_stop pre fs stopper next post x c w r w2 :
  Forall2 pure_operator pre fs ->
  (forall f y, In f fs ->
     result_object (f y) /\ truthy (prop (f y) "stopped") = false) ->
  stopper (chain_value fs x) None w = (Normal r, w2) ->
  nullish r = false ->
  truthy (prop r "stopped") = true ->
  compose (pre ++ stopper :: next :: post) x c w = (Normal compose_stop_marker, w2) /\
  prop compose_stop_marker "value" = VUndefined /\
  prop compose_stop_marker "stopped" = VUndefined.
Proof.
  intros HF Hres Hstop Hr Hs. split; [|split; reflexivity].
  destruct (compose_reduce_pure pre fs HF Hres
              (pipeResult x [("debugName", VStr "compose")]) w eq_refl)
    as (acc' & Hrun & Hn & Hv & _).
  unfold compose. rewrite Hrun. cbn [compose_reduce]. unfold bind.
  rewrite (read_prop_defined acc' "value" w Hn), Hv. simpl prop at 1.
  change (prop (pipeResult x [("debugName", VStr "compose")]) "value") with x.
  rewrite Hstop.
  rewrite !read_prop_defined by (exact Hr || exact Hn).
  rewrite Hs. apply compose_reduce_marker.
Qed.

(** compose(filter(x => x > 10), tap(x => { seen.push(x) })) applied to 5:
    the tap is not called and the result is the marker. *)
Lemma compose_loses_the_stop_witness :
  compose [filter gt10; tap push] (VNum 5) None empty_world
    = (Normal compose_stop_marker, empty_world) /\
  prop compose_stop_marker "value" = VUndefined /\
  prop compose_stop_marker "stopped" = VUndefined.
Proof.
  apply (compose_loses_the_stop [] [] (filter gt10) (tap push) [] (VNum 5) None
           empty_world
           (VObj [("value", VNum 5); ("stopped", VBool true);
                  ("debugName", VStr "filter / stop")])
           empty_world).
  - apply Forall2_nil.
  - intros f y [].
  - reflexivity.
  - reflexivity.
  - reflexivity.
Defined.

(* ================================================================== *)
(** ** Further properties: Pipe.subscribe *)
(* ================================================================== *)






(** X18.  A throw of onNext is reported through onError, although the pipe
    itself ended without an error: when the thrown value is one String
    converts, an Error among them, onError is called with it, made an
    Error, in the world the throw left, and onComplete is not called. *)
Theorem subscribe_reports_onNext_throw p onNext onError onComplete w res w1 e w2 :
  execute p w = (Normal res, w1) ->
  truthy (res_error res) = false ->
  onNext (res_value res) w1 = (Throw e, w2) ->
  convertible e = true ->
  subscribe p (Some onNext) onError onComplete w = call_opt onError (as_Error e) w2.
Proof.
  intros E He Hn Hc. unfold subscribe, try_catch, bind. rewrite E, He. simpl.
  unfold bind. rewrite Hn.
  destruct onError as [g|]; [|reflexivity].
  rewrite (caught_Error_returns e w2 (convertible_String e Hc)). reflexivity.
Qed.

(** createPipe(5).subscribe(() => { throw new Error("boom") }, e => { seen.push(e) }, ...):
    the error handler has received Error("boom"). *)
Lemma subscribe_reports_onNext_throw_witness :
  subscribe (createPipe (VNum 5) None) (Some boom) (Some push) (Some push) empty_world
  = (Normal tt, mkWorld [] [new_Error "boom"]).
Proof.
  exact (eq_trans
           (subscribe_reports_onNext_throw (createPipe (VNum 5) None) boom (Some push)
              (Some push) empty_world (mkResult (VNum 5) false VUndefined (VObj []))
              empty_world (new_Error "boom") empty_world eq_refl eq_refl eq_refl eq_refl)
           eq_refl).
Defined.

(* ================================================================== *)
(** ** Further properties: PipeManagerImpl *)
(* ================================================================== *)

(** X19.  Maps on a manager apply in the order they are chained: for
    functions that do not throw, createPipe(v).map(f1)...map(fn) holds
    fn(...f1(v)), not stopped and without error. *)
Theorem manager_map_order v gs w :
  map_all (PipeOperators.createPipe v) (List.map pure_callback gs) w =
  (Normal (PipeOperators.mkContext (fold_left (fun x g => g x) gs v) false VUndefined
             VUndefined), w).
Proof.
  unfold PipeOperators.createPipe. revert v.
  induction gs as [|g rest IH]; intros v; simpl; [reflexivity|].
  unfold bind. simpl. apply IH.
Qed.

(** X20.  A manager that is stopped or carries an error calls none of the
    callbacks it is given: map, tap, filter, when and switch return at
    once, the world untouched, with the value, the flag and the error as
    they were.  tap and filter also keep the metadata; map, when and
    switch drop it. *)
Theorem stopped_manager_calls_nothing this f g cases d w :
  PipeOperators.stopped this || truthy (PipeOperators.error this) = true ->
  let kept :=
    PipeOperators.mkContext (PipeOperators.value this) (PipeOperators.stopped this)
      (PipeOperators.error this) VUndefined in
  PipeOperators.map this f w = (Normal kept, w) /\
  PipeOperators.tap this f w = (Normal this, w) /\
  PipeOperators.filter this f w = (Normal this, w) /\
  PipeOperators.when this g f w = (Normal kept, w) /\
  PipeOperators.unless this g f w = (Normal kept, w) /\
  PipeOperators.switch this cases d w = (Normal kept, w).
Proof.
  intros H kept.
  unfold PipeOperators.map, PipeOperators.tap, PipeOperators.filter,
    PipeOperators.unless, PipeOperators.when, PipeOperators.switch.
  rewrite H.
  assert (H' : negb (PipeOperators.stopped this)
               && negb (truthy (PipeOperators.error this)) = false).
  { destruct (PipeOperators.stopped this); [reflexivity|]. simpl in *. rewrite H. reflexivity. }
  rewrite H'. repeat split.
Qed.

(** createPipe(5).stop(): a tap that would push is not run. *)
Lemma stopped_manager_calls_nothing_witness :
  PipeOperators.tap (PipeOperators.stop (PipeOperators.createPipe (VNum 5))) push empty_world
  = (Normal (PipeOperators.stop (PipeOperators.createPipe (VNum 5))), empty_world).
Proof.
  exact (proj1 (proj2 (stopped_manager_calls_nothing
                         (PipeOperators.stop (PipeOperators.createPipe (VNum 5)))
                         push gt3 [] None empty_world eq_refl))).
Defined.

(** X21.  catch recovers a failed map: when the operator throws on [v] a
    value that String converts, an Error among them, and the handler
    returns [y] for the error, made an Error, and [v],
    createPipe(v).map(op).catch(handler) holds [y], not stopped and
    without error. *)
Theorem manager_catch_recovers v op handler e w1 y w w2 :
  op v w = (Throw e, w1) ->
  convertible e = true ->
  handler (as_Error e) v w1 = (Normal y, w2) ->
  (m <- PipeOperators.map (PipeOperators.createPipe v) op ;; PipeOperators.catch m handler) w
  = (Normal (PipeOperators.mkContext y false VUndefined VUndefined), w2).
Proof.
  intros Hop Hc Hh.
  unfold bind, PipeOperators.map, PipeOperators.createPipe, try_catch. simpl.
  unfold bind. rewrite Hop. rewrite (caught_Error_returns e w1 (convertible_String e Hc)).
  unfold ret. simpl.
  unfold PipeOperators.catch. simpl. rewrite truthy_as_Error.
  unfold try_catch, bind. rewrite Hh. reflexivity.
Qed.

(** createPipe(5).map(() => { throw new Error("boom") }).catch(() => 42) holds 42. *)
Lemma manager_catch_recovers_witness :
  (m <- PipeOperators.map (PipeOperators.createPipe (VNum 5)) boom ;;
   PipeOperators.catch m (fun _ _ => ret (VNum 42))) empty_world
  = (Normal (PipeOperators.mkContext (VNum 42) false VUndefined VUndefined), empty_world).
Proof.
  apply (manager_catch_recovers (VNum 5) boom (fun _ _ => ret (VNum 42))
           (new_Error "boom") empty_world (VNum 42) empty_world empty_world);
    reflexivity.
Defined.

(** X22.  retry(times) calls nothing and does not depend on how large
    times is: on a manager that is stopped with an error it is resume()
    when times is positive, and it is the identity in every other case. *)
Theorem manager_retry_is_resume times this :
  PipeOperators.retry times this =
  if PipeOperators.stopped this && truthy (PipeOperators.error this) && (0 <? times)%Z
  then PipeOperators.resume this
  else this.
Proof. apply PipeManagerImpl_retry_clears. Qed.

(** Split on every test of a method of the manager and close the cases. *)
Ltac manager_cases this :=
  destruct (PipeOperators.stopped this) eqn:?;
  destruct (truthy (PipeOperators.error this)) eqn:?; simpl;
  repeat match goal with
         | |- context [let (_, _) := ?x in _] =>
             lazymatch x with
             | context [let (_, _) := _ in _] => fail
             | context [match _ with _ => _ end] => fail
             | _ => destruct x as [[?|?] ?] eqn:?; simpl
             end
         | |- context [if ?b then _ else _] => destruct b eqn:?; simpl
         | |- context [match ?x with Some _ => _ | None => _ end] =>
             destruct x eqn:?; simpl
         end;
  intros E; inversion E; subst; unfold PipeOperators.createManager in *;
  simpl in *; intros;
  try congruence;
  try (exfalso;
       match goal with H : true = true -> false = true |- _ => discriminate (H eq_refl) end);
  auto.

(** X23.  The methods of a manager keep errors paired with the stopped
    flag: createPipe gives a manager in which an error that is set comes
    with stopped, and from such a manager map, tap, filter, catch, when,
    unless, switch, retry, stop, resume and reset give one again, whatever
    the callbacks return or throw. *)
Theorem manager_error_means_stopped this :
  error_means_stopped this ->
  (forall f w m w', PipeOperators.map this f w = (Normal m, w') -> error_means_stopped m) /\
  (forall f w m w', PipeOperators.tap this f w = (Normal m, w') -> error_means_stopped m) /\
  (forall f w m w', PipeOperators.filter this f w = (Normal m, w') -> error_means_stopped m) /\
  (forall h w m w', PipeOperators.catch this h w = (Normal m, w') -> error_means_stopped m) /\
  (forall c f w m w', PipeOperators.when this c f w = (Normal m, w') ->
                      error_means_stopped m) /\
  (forall c f w m w', PipeOperators.unless this c f w = (Normal m, w') ->
                      error_means_stopped m) /\
  (forall cases d w m w', PipeOperators.switch this cases d w = (Normal m, w') ->
                          error_means_stopped m) /\
  (forall times, error_means_stopped (PipeOperators.retry times this)) /\
  error_means_stopped (PipeOperators.stop this) /\
  error_means_stopped (PipeOperators.resume this) /\
  error_means_stopped (PipeOperators.reset this).
Proof.
  intros Hinv. unfold error_means_stopped in *.
  repeat match goal with |- _ /\ _ => split end.
  - intros f w m w'. unfold PipeOperators.map, try_catch, bind, ret. manager_cases this.
  - intros f w m w'. unfold PipeOperators.tap, try_catch, bind, ret. manager_cases this.
  - intros f w m w'. unfold PipeOperators.filter, try_catch, bind, ret. manager_cases this.
  - intros h w m w'. unfold PipeOperators.catch, try_catch, bind, ret. manager_cases this.
  - intros c f w m w'. unfold PipeOperators.when, try_catch, bind, ret. manager_cases this.
  - intros c f w m w'.
    unfold PipeOperators.unless, PipeOperators.when, try_catch, bind, ret. manager_cases this.
  - intros cases d w m w'. unfold PipeOperators.switch, try_catch, bind, ret.
    manager_cases this.
  - intros times. rewrite PipeManagerImpl_retry_clears.
    destruct (PipeOperators.stopped this && truthy (PipeOperators.error this)
              && (0 <? times)%Z); simpl; [discriminate | exact Hinv].
  - reflexivity.
  - discriminate.
  - discriminate.
Qed.

(** createPipe(5).map(() => { throw new Error("boom") }) is stopped with its error. *)
Lemma manager_error_means_stopped_witness :
  error_means_stopped (PipeOperators.mkContext (VNum 5) true (new_Error "boom") VUndefined).
Proof.
  apply (proj1 (manager_error_means_stopped (PipeOperators.createPipe (VNum 5))
                  (fun H => match Bool.diff_false_true H with end))
           boom empty_world _ empty_world).
  reflexivity.
Defined.





Lemma switch_cases_skips v pre : forall rest w,
  Forall (never_matches v) pre ->
  PipeOperators.switch_cases (pre ++ rest) v w = PipeOperators.switch_cases rest v w.
Proof.
  induction pre as [|[c op] pre IH]; intros rest w H; [reflexivity|].
  inversion H as [|? ? Hc Hrest]; subst. simpl. unfold bind.
  destruct (Hc w) as (b & E & Hb). simpl in E. rewrite E, Hb. apply IH. exact Hrest.
Qed.

(** X25.  switch applies the operator of the first case whose condition
    holds and looks no further: when the conditions of the cases before it
    do not hold, the manager gets the value that operator returns, not
    stopped and without error, and neither the later cases nor the default
    operator are called. *)
Theorem switch_takes_first_match this pre c op post d w b w1 y w2 :
  running this ->
  Forall (never_matches (PipeOperators.value this)) pre ->
  c (PipeOperators.value this) w = (Normal b, w1) ->
  truthy b = true ->
  op (PipeOperators.value this) w1 = (Normal y, w2) ->
  PipeOperators.switch this (pre ++ (c, op) :: post) d w =
  (Normal (PipeOperators.mkContext y false VUndefined (PipeOperators.metadata this)), w2).
Proof.
  intros [Hs He] Hpre Hc Hb Hop. unfold PipeOperators.switch.
  rewrite Hs, He. simpl. unfold try_catch, bind.
  rewrite (switch_cases_skips _ pre _ w Hpre). simpl. unfold bind.
  rewrite Hc, Hb, Hop. reflexivity.
Qed.

(** createPipe(5).switch([{ x > 10: x * 2 }, { x > 3: x + 1 }, { x > 3: x * 2 }]) holds 6. *)
Lemma switch_takes_first_match_witness :
  PipeOperators.switch (PipeOperators.createPipe (VNum 5))
    ([(gt10, times2)] ++ (gt3, plus1) :: [(gt3, times2)]) None empty_world
  = (Normal (PipeOperators.mkContext (VNum 6) false VUndefined VUndefined), empty_world).
Proof.
  apply (switch_takes_first_match (PipeOperators.createPipe (VNum 5))
           [(gt10, times2)] gt3 plus1 [(gt3, times2)] None empty_world
           (VBool true) empty_world (VNum 6) empty_world);
    try reflexivity.
  - split; reflexivity.
  - constructor; [|constructor]. intros w. exists (VBool false). split; reflexivity.
Defined.

(** X26.  When no condition holds and no default operator is given, switch
    calls no operator and fails the manager: it keeps the value, is
    stopped, and carries the error "No matching case found in switch
    statement"; the metadata is dropped. *)
Theorem switch_without_match_fails this cases w :
  running this ->
  Forall (never_matches (PipeOperators.value this)) cases ->
  PipeOperators.switch this cases None w =
  (Normal (PipeOperators.mkContext (PipeOperators.value this) true
             (new_Error "No matching case found in switch statement") VUndefined), w).
Proof.
  intros [Hs He] Hc. unfold PipeOperators.switch.
  rewrite Hs, He. simpl. unfold try_catch, bind.
  pose proof (switch_cases_skips _ cases [] w Hc) as E. rewrite app_nil_r in E.
  rewrite E. reflexivity.
Qed.

(** createPipe(5).switch([{ x > 10: x * 2 }]). *)
Lemma switch_without_match_fails_witness :
  PipeOperators.switch (PipeOperators.createPipe (VNum 5)) [(gt10, times2)] None empty_world
  = (Normal (PipeOperators.mkContext (VNum 5) true
               (new_Error "No matching case found in switch statement") VUndefined),
     empty_world).
Proof.
  apply (switch_without_match_fails (PipeOperators.createPipe (VNum 5)) [(gt10, times2)]
           empty_world).
  - split; reflexivity.
  - constructor; [|constructor]. intros w. exists (VBool false). split; reflexivity.
Defined.

(** X27.  when and unless are complementary: on a running manager, for a
    condition without effect and an operator that returns [y], exactly one
    of when(condition, operator) and unless(condition, operator) gives the
    manager the value [y]; the other returns the manager as it is, the
    operator not called. *)
Theorem when_unless_complementary this c op w b y w1 :
  running this ->
  (forall w0, c (PipeOperators.value this) w0 = (Normal b, w0)) ->
  op (PipeOperators.value this) w = (Normal y, w1) ->
  let applied :=
    PipeOperators.mkContext y false VUndefined (PipeOperators.metadata this) in
  PipeOperators.when this c op w =
    (if truthy b then (Normal applied, w1) else (Normal this, w)) /\
  PipeOperators.unless this c op w =
    (if truthy b then (Normal this, w) else (Normal applied, w1)).
Proof.
  intros [Hs He] Hc Hop applied.
  unfold PipeOperators.unless, PipeOperators.when. rewrite Hs, He. simpl.
  unfold try_catch, bind. rewrite !Hc. unfold ret. simpl.
  destruct this as [v s e m]. simpl in *.
  destruct (truthy b); simpl; rewrite ?Hop; subst; split; reflexivity.
Qed.

(** createPipe(5): when(x > 3, x + 1) gives 6, unless(x > 3, x + 1) leaves 5. *)
Lemma when_unless_complementary_witness :
  PipeOperators.when (PipeOperators.createPipe (VNum 5)) gt3 plus1 empty_world =
    (Normal (PipeOperators.mkContext (VNum 6) false VUndefined VUndefined), empty_world) /\
  PipeOperators.unless (PipeOperators.createPipe (VNum 5)) gt3 plus1 empty_world =
    (Normal (PipeOperators.createPipe (VNum 5)), empty_world).
Proof.
  apply (when_unless_complementary (PipeOperators.createPipe (VNum 5)) gt3 plus1
           empty_world (VBool true) (VNum 6) empty_world).
  - split; reflexivity.
  - intros w0. reflexivity.
  - reflexivity.
Defined.

(* ================================================================== *)
(** ** Further properties: LinqJs *)
(* ================================================================== *)

Lemma relative_index_bounds len k :
  (0 <= len)%Z -> (0 <= LinqJs.relative_index len k <= len)%Z.
Proof. intros H. unfold LinqJs.relative_index. destruct (k <? 0)%Z eqn:E; lia. Qed.

Lemma relative_index_zero len : (0 <= len)%Z -> LinqJs.relative_index len 0 = 0%Z.
Proof. intros H. unfold LinqJs.relative_index. simpl. lia. Qed.

Lemma relative_index_len len : (0 <= len)%Z -> LinqJs.relative_index len len = len.
Proof.
  intros H. unfold LinqJs.relative_index. destruct (len <? 0)%Z eqn:E; [|lia].
  apply Z.ltb_lt in E. lia.
Qed.

Lemma take_is_firstn T (l : list T) k :
  LinqJs.take l k =
  firstn (Z.to_nat (LinqJs.relative_index (Z.of_nat (List.length l)) k)) l.
Proof.
  unfold LinqJs.take, LinqJs.slice.
  rewrite relative_index_zero by lia. simpl. rewrite Z.sub_0_r. reflexivity.
Qed.

Lemma skip_is_skipn T (l : list T) k :
  LinqJs.skip l k =
  skipn (Z.to_nat (LinqJs.relative_index (Z.of_nat (List.length l)) k)) l.
Proof.
  unfold LinqJs.skip, LinqJs.slice_from, LinqJs.slice.
  rewrite relative_index_len by lia.
  pose proof (relative_index_bounds (Z.of_nat (List.length l)) k ltac:(lia)) as B.
  apply firstn_all2. rewrite length_skipn. lia.
Qed.

(** X28.  take and skip split a list: for every list and every integer
    count, negative ones included, the items take(count) keeps followed by
    the items skip(count) keeps are the list itself. *)
Theorem take_skip_partition T (l : list T) (k : Z) :
  (LinqJs.toList (LinqJs.take l k) ++ LinqJs.toList (LinqJs.skip l k))%list = l.
Proof.
  unfold LinqJs.toList. rewrite take_is_firstn, skip_is_skipn. apply firstn_skipn.
Qed.

(** X29.  take(count).count() is count when there are that many items and
    the number of items otherwise; a negative count counts from the end,
    take(-n) dropping the last n items. *)
Theorem take_count T (l : list T) (k : Z) :
  LinqJs.count (LinqJs.take l k) =
  (if (k <? 0)%Z then Z.max (LinqJs.count l + k) 0 else Z.min k (LinqJs.count l)).
Proof.
  unfold LinqJs.count. rewrite take_is_firstn, length_firstn.
  pose proof (relative_index_bounds (Z.of_nat (List.length l)) k ltac:(lia)) as B.
  rewrite Nat2Z.inj_min, Z2Nat.id by lia.
  unfold LinqJs.relative_index in *. destruct (k <? 0)%Z; lia.
Qed.
